(** * snps.py: SNP entities, their classification, read mapping and VCF loading

    A shallow embedding of [src/snps.py].  Python strings are [string]s over
    the ASCII range, Python integers are [Z], Python lists are [list]s,
    raised exceptions are the [Raise] branch of [result], and methods that
    mutate [self] take an [SNP] record and return the updated record. *)

From Stdlib Require Import String Ascii List ZArith Lia Bool Arith.
Import ListNotations.

Local Open Scope string_scope.
Local Open Scope list_scope.

(** ** Python built-ins used by the module *)

Module Py.

(** Exceptions that [snps.py] raises or handles. *)
Inductive exn : Type :=
| ValueError
| RuntimeError (msg : string)
| IOError (msg : string).

Inductive result (A : Type) : Type :=
| Ok (a : A)
| Raise (e : exn).
Arguments Ok {A} a.
Arguments Raise {A} e.

Definition bind {A B : Type} (m : result A) (k : A -> result B) : result B :=
  match m with
  | Ok a => k a
  | Raise e => Raise e
  end.

(** [str.isspace] on one character of the ASCII range: TAB, LF, VT, FF, CR,
    the separators FS, GS, RS, US, and the space. *)
Definition isspace (c : ascii) : bool :=
  let n := nat_of_ascii c in
  ((9 <=? n)%nat && (n <=? 13)%nat) || ((28 <=? n)%nat && (n <=? 32)%nat).

Fixpoint lstrip (s : string) : string :=
  match s with
  | EmptyString => EmptyString
  | String c s' => if isspace c then lstrip s' else s
  end.

Fixpoint rstrip (s : string) : string :=
  match s with
  | EmptyString => EmptyString
  | String c s' =>
      match rstrip s' with
      | EmptyString => if isspace c then EmptyString else String c EmptyString
      | r => String c r
      end
  end.

(** [s.strip()] *)
Definition strip (s : string) : string := rstrip (lstrip s).

(** [s.split(sep)] for a one-character separator: [n] separators give
    [n + 1] fields, and the empty string gives one empty field. *)
Fixpoint split (sep : ascii) (s : string) : list string :=
  match s with
  | EmptyString => [EmptyString]
  | String c s' =>
      if Ascii.eqb c sep then EmptyString :: split sep s'
      else match split sep s' with
           | f :: fs => String c f :: fs
           | [] => [String c EmptyString]
           end
  end.

(** [s.startswith(p)] *)
Fixpoint startswith (p s : string) : bool :=
  match p, s with
  | EmptyString, _ => true
  | String _ _, EmptyString => false
  | String a p', String b s' => Ascii.eqb a b && startswith p' s'
  end.

(** [x in s] on strings: [x] occurs in [s] as a substring. *)
Fixpoint contains (x s : string) : bool :=
  startswith x s ||
  match s with
  | EmptyString => false
  | String _ s' => contains x s'
  end.

Definition digit_val (c : ascii) : option Z :=
  let n := nat_of_ascii c in
  if (48 <=? n)%nat && (n <=? 57)%nat then Some (Z.of_nat (n - 48)) else None.

(** The digit part of an integer literal: decimal digits, with single
    underscores allowed between two digits.  [acc] is the value read so far
    and [after_digit] tells whether the previous character was a digit. *)
Fixpoint int_digits (s : string) (acc : Z) (after_digit : bool) : option Z :=
  match s with
  | EmptyString => if after_digit then Some acc else None
  | String c s' =>
      if Ascii.eqb c "_"
      then (if after_digit then int_digits s' acc false else None)
      else match digit_val c with
           | Some d => int_digits s' (10 * acc + d)%Z true
           | None => None
           end
  end.

(** The blanks that [int] skips around a literal: TAB, LF, VT, FF, CR and
    the space.  Unlike [str.strip], it does not skip the separators FS, GS,
    RS and US. *)
Definition int_isspace (c : ascii) : bool :=
  let n := nat_of_ascii c in
  ((9 <=? n)%nat && (n <=? 13)%nat) || (n =? 32)%nat.

Fixpoint int_lstrip (s : string) : string :=
  match s with
  | EmptyString => EmptyString
  | String c s' => if int_isspace c then int_lstrip s' else s
  end.

Fixpoint int_rstrip (s : string) : string :=
  match s with
  | EmptyString => EmptyString
  | String c s' =>
      match int_rstrip s' with
      | EmptyString =>
          if int_isspace c then EmptyString else String c EmptyString
      | r => String c r
      end
  end.

Definition int_strip (s : string) : string := int_rstrip (int_lstrip s).

(** [int(s)] on a string, base 10: the blanks around the literal are
    skipped, one sign may precede the digits.  [None] stands for the
    [ValueError].  Digits outside the ASCII range and the interpreter's
    limit on the number of digits of a literal are left out. *)
Definition parse_int (s : string) : option Z :=
  match int_strip s with
  | String "-" r => option_map Z.opp (int_digits r 0%Z false)
  | String "+" r => int_digits r 0%Z false
  | t => int_digits t 0%Z false
  end.

Definition int (s : string) : result Z :=
  match parse_int s with
  | Some z => Ok z
  | None => Raise ValueError
  end.

End Py.

Import Py.

Notation "x <- m ;; k" := (bind m (fun x => k))
  (at level 61, m at next level, right associativity).
Notation "' p <- m ;; k" := (bind m (fun x => let 'p := x in k))
  (at level 61, p pattern, m at next level, right associativity).

(** ** Read records (external collaborator)

    A read exposes [chr], [start], [end] and the method [get_base]. *)
Record Read : Type := mkRead {
  chr : string;
  start : Z;
  end_ : Z;
  get_base : Z -> string
}.

(** ** class SNP *)

Record SNP : Type := mkSNP {
  chrom : string;
  id : string;
  pos : Z;
  ref : string;
  alt : string;
  mut : string;
  gt : string;
  type : string;
  reads : list Read;
  bases : list string;
  model_llkh : list Z;
  model : option Z
}.

Definition set_type (self : SNP) (t : string) : SNP :=
  mkSNP (chrom self) (id self) (pos self) (ref self) (alt self) (mut self)
        (gt self) t (reads self) (bases self) (model_llkh self) (model self).

Definition set_reads_bases (self : SNP) (rs : list Read) (bs : list string) : SNP :=
  mkSNP (chrom self) (id self) (pos self) (ref self) (alt self) (mut self)
        (gt self) (type self) rs bs (model_llkh self) (model self).

Definition set_model (self : SNP) (m : Z) : SNP :=
  mkSNP (chrom self) (id self) (pos self) (ref self) (alt self) (mut self)
        (gt self) (type self) (reads self) (bases self) (model_llkh self) (Some m).

Definition TRANSITIONS : list string := ["AG"; "CT"].
Definition TRANSVERSIONS : list string := ["AC"; "AT"; "CG"; "GT"].

(** One iteration of the [for conbo in TRANSVERSIONS] loop. *)
Definition transversion_step (self : SNP) (conbo : string) : SNP :=
  if negb (ref self =? alt self) && contains (ref self) conbo
     && contains (alt self) conbo
  then set_type self "transversion"
  else self.

Definition detect_type (self : SNP) : SNP :=
  if (1 <? String.length (ref self))%nat
     || (1 <? String.length (alt self))%nat then
    set_type self "indel"
  else if (contains (ref self) (nth 0 TRANSITIONS "")
           && contains (alt self) (nth 0 TRANSITIONS ""))
          || (contains (ref self) (nth 1 TRANSITIONS "")
              && contains (alt self) (nth 1 TRANSITIONS ""))
  then set_type self "transition"
  else fold_left transversion_step TRANSVERSIONS self.

(** [SNP.__init__]: [int(pos)] may raise; the type starts as the empty
    string and [detect_type] runs before the read lists are set, which it
    does not touch. *)
Definition SNP_init (chr id pos ref alt gt : string) : result SNP :=
  p <- int pos ;;
  Ok (detect_type
        (mkSNP chr id p ref alt (ref ++ alt)%string gt "" [] [] [0%Z; 0%Z] None)).

(** The test of [detect_mapped_reads]:
    [self.chrom == read.chr and read.start <= self.pos <= read.end]. *)
Definition maps_to (self : SNP) (read : Read) : bool :=
  (chrom self =? chr read)
  && ((start read <=? pos self)%Z && (pos self <=? end_ read)%Z).

(** One iteration of the loop of [detect_mapped_reads]: both lists grow by
    one element, or neither does. *)
Definition mapped_step (self : SNP) (read : Read) : SNP :=
  if maps_to self read
  then set_reads_bases self (reads self ++ [read])
                       (bases self ++ [get_base read (pos self)])
  else self.

Definition detect_mapped_reads (self : SNP) (reads_data : list Read) : SNP :=
  fold_left mapped_step reads_data self.

Definition SNP_eq (self other : SNP) : bool :=
  (chrom self =? chrom other) && (pos self =? pos other)%Z
  && (mut self =? mut other).

Definition SNP_ne (self other : SNP) : bool :=
  negb (chrom self =? chrom other) || negb (pos self =? pos other)%Z
  || negb (mut self =? mut other).

Section Hashing.
(** The built-in [hash] on a (string, integer) tuple. *)
Variable hash : string * Z -> Z.

Definition SNP_hash (self : SNP) : Z := hash (chrom self, pos self).
End Hashing.

(** ** Module-level functions *)

(** One iteration of the loop of [find_most_reads_snp] on the pair
    [(max_reads_num, best_snp)]. *)
Definition most_reads_step (st : nat * option SNP) (snp : SNP)
  : nat * option SNP :=
  let '(max_reads_num, best_snp) := st in
  if (max_reads_num <? length (reads snp))%nat
  then (length (reads snp), Some snp)
  else (max_reads_num, best_snp).

Definition find_most_reads_snp (snp_list : list SNP) : option SNP :=
  snd (fold_left most_reads_step snp_list (0%nat, None)).

Definition TAB : ascii := "009"%char.
Definition PIPE : ascii := "|"%char.

(** The ten-name tuple assignment on the split line:
    chrom, pos, id, ref, alt, qual, filter, info, format, gt. *)
Definition unpack10 (l : list string)
  : result (string * string * string * string * string
            * string * string * string * string * string) :=
  match l with
  | [f0; f1; f2; f3; f4; f5; f6; f7; f8; f9] =>
      Ok (f0, f1, f2, f3, f4, f5, f6, f7, f8, f9)
  | _ => Raise ValueError
  end.

(** [a, b = gt.split("|")] *)
Definition unpack2 (l : list string) : result (string * string) :=
  match l with
  | [a; b] => Ok (a, b)
  | _ => Raise ValueError
  end.

(** The body of [for line in f], on the list [all_snps] built so far. *)
Definition load_line (all_snps : list SNP) (line : string)
  : result (list SNP) :=
  if startswith "chr" line then
    '(chrom, pos, id, ref, alt, qual, filter, info, format, gt)
       <- unpack10 (split TAB (strip line)) ;;
    '(a, b) <- unpack2 (split PIPE gt) ;;
    if negb (a =? b) then
      snp <- SNP_init chrom id pos ref alt gt ;;
      if negb (type snp =? "indel")
      then Ok (all_snps ++ [snp])
      else Ok all_snps
    else Ok all_snps
  else Ok all_snps.

Fixpoint load_lines (f : list string) (all_snps : list SNP)
  : result (list SNP) :=
  match f with
  | [] => Ok all_snps
  | line :: rest =>
      acc <- load_line all_snps line ;;
      load_lines rest acc
  end.

(** A path with a NUL character in it: [open] rejects it with a
    [ValueError] before it looks for the file. *)
Definition has_nul (name : string) : bool :=
  contains (String "000" EmptyString) name.

(** The files that can be opened, each as the lines its iteration yields
    (line terminators included); [None] is a path the system cannot open.
    No file has a NUL in its name. *)
Record filesystem : Type := mkFilesystem {
  lookup :> string -> option (list string);
  lookup_nul : forall name, has_nul name = true -> lookup name = None
}.

Definition open (fs : filesystem) (name : string) : result (list string) :=
  if has_nul name then Raise ValueError
  else match fs name with
       | Some f => Ok f
       | None => Raise (IOError "No such file or directory")
       end.

(** [load_VCF]: the [try] body, then the two handlers. *)
Definition load_VCF (fs : filesystem) (vcf_file : string)
  : result (list SNP) :=
  match (f <- open fs vcf_file ;; load_lines f []) with
  | Ok all_snps => Ok all_snps
  | Raise ValueError => Raise (RuntimeError "Not the right values to unpack.")
  | Raise (IOError _) => Raise (IOError "This vcf file is not available.")
  | Raise e => Raise e
  end.

(** [map_reads]: every SNP is updated by [detect_mapped_reads]. *)
Definition map_reads (snps : list SNP) (reads : list Read) : list SNP :=
  map (fun snp => detect_mapped_reads snp reads) snps.

(** A file system with one file, used in the examples. *)
Definition one_file_lookup (name : string) (f : list string) (n : string)
  : option (list string) :=
  if has_nul n then None else if n =? name then Some f else None.

Lemma one_file_nul (name : string) (f : list string) (n : string) :
  has_nul n = true -> one_file_lookup name f n = None.
Proof. unfold one_file_lookup. now intros ->. Qed.

Definition one_file (name : string) (f : list string) : filesystem :=
  mkFilesystem (one_file_lookup name f) (one_file_nul name f).

(** Tab-joined fields followed by a line feed, as a line read from a file. *)
Fixpoint tsv (fields : list string) : string :=
  match fields with
  | [] => String "010" EmptyString
  | [x] => (x ++ String "010" EmptyString)%string
  | x :: rest => (x ++ String TAB (tsv rest))%string
  end.

(** ** Specification-side vocabulary *)

Definition nucleotide (c : ascii) : Prop :=
  c = "A"%char \/ c = "C"%char \/ c = "G"%char \/ c = "T"%char.

(** The fixed grouping: A<->G and C<->T. *)
Definition transition_pair (r a : ascii) : Prop :=
  (r = "A"%char /\ a = "G"%char) \/ (r = "G"%char /\ a = "A"%char) \/
  (r = "C"%char /\ a = "T"%char) \/ (r = "T"%char /\ a = "C"%char).

Definition char (c : ascii) : string := String c EmptyString.

(** ** Specification-side vocabulary for the loader and the read lists *)

(** The six fields of a data line that the loader uses, and the two
    alleles of its genotype. *)
Record vcf_row : Type := mkRow {
  row_chrom : string;
  row_pos : string;
  row_id : string;
  row_ref : string;
  row_alt : string;
  row_gt : string;
  row_a : string;
  row_b : string
}.

(** A data line is well formed when it splits into 10 fields and its
    genotype into two alleles. *)
Definition row_of_line (line : string) (r : vcf_row) : Prop :=
  exists qual filter info format,
    split TAB (strip line)
    = [row_chrom r; row_pos r; row_id r; row_ref r; row_alt r;
       qual; filter; info; format; row_gt r]
    /\ split PIPE (row_gt r) = [row_a r; row_b r].

Definition heterozygous (r : vcf_row) : bool := negb (row_a r =? row_b r).

Definition snp_of_row (r : vcf_row) (snp : SNP) : Prop :=
  SNP_init (row_chrom r) (row_id r) (row_pos r) (row_ref r) (row_alt r)
           (row_gt r) = Ok snp.

Definition not_indel (snp : SNP) : bool := negb (type snp =? "indel").

(** [bases[i]] is the base of [reads[i]] at [pos], for every index. *)
Definition aligned (self : SNP) : Prop :=
  bases self = map (fun read => get_base read (pos self)) (reads self).

Definition nreads (snp : SNP) : nat := length (reads snp).

(** [snp] is what the loader constructs from the heterozygous data line
    [line] and keeps. *)
Definition kept_from (line : string) (snp : SNP) : Prop :=
  exists chrom pos id ref alt qual filter info format gt a b,
    startswith "chr" line = true
    /\ split TAB (strip line)
       = [chrom; pos; id; ref; alt; qual; filter; info; format; gt]
    /\ split PIPE gt = [a; b] /\ a <> b
    /\ SNP_init chrom id pos ref alt gt = Ok snp
    /\ type snp <> "indel".

(** Every character of the string is white space. *)
Fixpoint all_space (s : string) : bool :=
  match s with
  | EmptyString => true
  | String c s' => isspace c && all_space s'
  end.

(** [line.endswith("\n")] with the line feed written as a character. *)
Fixpoint ends_with_lf (line : string) : bool :=
  match line with
  | EmptyString => false
  | String c EmptyString => Ascii.eqb c "010"
  | String _ rest => ends_with_lf rest
  end.

(** The lines of the file whose content is that of [f1] followed by that
    of [f2]: the last line of [f1] runs on into the first line of [f2]
    unless it ends in a line feed. *)
Fixpoint concat_files (f1 f2 : list string) : list string :=
  match f1 with
  | [] => f2
  | [line] =>
      if ends_with_lf line then line :: f2
      else match f2 with
           | [] => [line]
           | line2 :: rest2 => (line ++ line2)%string :: rest2
           end
  | line :: rest => line :: concat_files rest f2
  end.

(** ** Example inputs *)

Definition valid_line : string :=
  tsv ["chr19"; "294525"; "."; "A"; "C"; "0"; "PASS"; "KM=8"; "GT"; "1|0"].

Definition nine_field_line : string :=
  tsv ["chr19"; "294525"; "."; "A"; "C"; "0"; "PASS"; "KM=8"; "1|0"].

Definition bad_position_line : string :=
  tsv ["chr19"; "12x"; "."; "A"; "C"; "0"; "PASS"; "KM=8"; "GT"; "1|0"].

Definition homozygous_bad_position_line : string :=
  tsv ["chr19"; "12x"; "."; "A"; "C"; "0"; "PASS"; "KM=8"; "GT"; "1|1"].

Definition header_line : string := "##fileformat=VCFv4.2" ++ String "010" "".

Definition homozygous_line : string :=
  tsv ["chr19"; "300000"; "."; "G"; "T"; "0"; "PASS"; "KM=8"; "GT"; "1|1"].

Definition indel_line : string :=
  tsv ["chr19"; "310000"; "."; "AT"; "C"; "0"; "PASS"; "KM=8"; "GT"; "0|1"].

Definition example_file : list string :=
  [header_line; valid_line; homozygous_line; indel_line; valid_line].

Definition example_rows : list vcf_row :=
  [mkRow "chr19" "294525" "." "A" "C" "1|0" "1" "0";
   mkRow "chr19" "300000" "." "G" "T" "1|1" "1" "1";
   mkRow "chr19" "310000" "." "AT" "C" "0|1" "0" "1";
   mkRow "chr19" "294525" "." "A" "C" "1|0" "1" "0"].

Definition example_snp : SNP :=
  mkSNP "chr19" "." 294525 "A" "C" "AC" "1|0" "transversion" [] []
        [0%Z; 0%Z] None.

Definition example_indel : SNP :=
  mkSNP "chr19" "." 310000 "AT" "C" "ATC" "0|1" "indel" [] [] [0%Z; 0%Z] None.

Definition negative_position_line : string :=
  tsv ["chr19"; "-5"; "."; "A"; "C"; "0"; "PASS"; "KM=8"; "GT"; "1|0"].

Definition read_chr1_100_200 : Read :=
  mkRead "chr1" 100 200 (fun _ => "A").

Definition read_chr2_100_200 : Read :=
  mkRead "chr2" 100 200 (fun _ => "C").

Definition read_chr1_150_150 : Read :=
  mkRead "chr1" 150 150 (fun _ => "G").

Definition snp_chr1_150 : SNP :=
  mkSNP "chr1" "." 150 "A" "G" "AG" "1|0" "transition" [] [] [0%Z; 0%Z] None.

Definition with_reads (snp : SNP) (rs : list Read) : SNP :=
  set_reads_bases snp rs (map (fun read => get_base read (pos snp)) rs).

Definition snp_no_reads : SNP := snp_chr1_150.

Definition snp_two_reads : SNP :=
  with_reads example_snp [read_chr1_100_200; read_chr1_150_150].

Definition snp_two_reads_later : SNP :=
  with_reads snp_chr1_150 [read_chr1_150_150; read_chr1_100_200].

Definition snp_one_read : SNP := with_reads example_indel [read_chr1_100_200].

Definition ranked_snps : list SNP :=
  [snp_no_reads; snp_one_read; snp_two_reads; snp_two_reads_later].

Definition unphased_line : string :=
  tsv ["chr19"; "294525"; "."; "A"; "C"; "0"; "PASS"; "KM=8"; "GT"; "0/1"].

Definition indented_line : string := (" " ++ valid_line)%string.

(** A data line without its terminator, as the last line of a file that
    does not end in a line feed. *)
Definition bare_line : string :=
  String.concat (String TAB EmptyString)
    ["chr19"; "294525"; "."; "A"; "C"; "0"; "PASS"; "KM=8"; "GT"; "1|0"].

Definition CRLF : string := String "013" (String "010" EmptyString).

Definition mapped_reads_data : list Read :=
  [read_chr1_100_200; read_chr2_100_200; read_chr1_150_150].


(** A data line of 10 fields followed by a TAB before the line feed. *)
Definition trailing_tab_line : string :=
  tsv ["chr19"; "294525"; "."; "A"; "C"; "0"; "PASS"; "KM=8"; "GT"; "1|0";
       ""].

(** A hash on (string, integer) pairs, for the example. *)
Definition length_hash (k : string * Z) : Z :=
  (Z.of_nat (String.length (fst k)) + snd k)%Z.

(** * Classification *)

Section Classification.
Variables chr id pos ref alt gt : string.
Variable snp : SNP.
Hypothesis built : SNP_init chr id pos ref alt gt = Ok snp.

Lemma SNP_init_inv :
  exists p, parse_int pos = Some p /\
    snp = detect_type
            (mkSNP chr id p ref alt (ref ++ alt)%string gt "" [] []
                   [0%Z; 0%Z] None).
Proof.
  pose proof built as B. unfold SNP_init, int in B.
  destruct (parse_int pos) as [p|]; simpl in B; [|discriminate].
  exists p. split; [reflexivity|]. now inversion B.
Qed.

Lemma SNP_init_indel :
  (1 < String.length ref \/ 1 < String.length alt)%nat ->
  type snp = "indel".
Proof.
  intros Hlen. destruct SNP_init_inv as (p & _ & ->).
  unfold detect_type; simpl.
  assert (E : ((1 <? String.length ref)%nat
               || (1 <? String.length alt)%nat) = true).
  { apply orb_true_iff.
    destruct Hlen as [H|H]; [left|right]; now apply Nat.ltb_lt. }
  now rewrite E.
Qed.

Lemma SNP_init_nucleotides (r a : ascii) :
  ref = char r -> alt = char a -> nucleotide r -> nucleotide a -> r <> a ->
  (type snp = "transition" /\ transition_pair r a) \/
  (type snp = "transversion" /\ ~ transition_pair r a).
Proof.
  intros Er Ea Hr Ha Hne. destruct SNP_init_inv as (p & _ & ->).
  rewrite Er, Ea. clear Er Ea. unfold nucleotide in Hr, Ha.
  destruct Hr as [-> | [-> | [-> | ->]]]; destruct Ha as [-> | [-> | [-> | ->]]];
    try (exfalso; apply Hne; reflexivity);
    unfold transition_pair;
    first
      [ left; split; [reflexivity | tauto]
      | right; split; [reflexivity |];
        intros [[? ?]|[[? ?]|[[? ?]|[? ?]]]]; discriminate ].
Qed.
End Classification.

(** C1. An SNP built from one-character [ref] and [alt] over A, C, G, T
    with [ref] different from [alt] has type "transition" or
    "transversion", "transition" exactly for the pairs A/G and C/T and
    "transversion" for every other pair; an SNP whose [ref] or [alt] is
    longer than one character has type "indel". *)
Theorem detect_type_classifies (chr id pos ref alt gt : string) (snp : SNP)
    (built : SNP_init chr id pos ref alt gt = Ok snp) :
  (forall r a : ascii,
      ref = char r -> alt = char a -> nucleotide r -> nucleotide a -> r <> a ->
      (type snp = "transition" \/ type snp = "transversion")
      /\ (type snp = "transition" <-> transition_pair r a)
      /\ (type snp = "transversion" <-> ~ transition_pair r a))
  /\ ((1 < String.length ref \/ 1 < String.length alt)%nat ->
      type snp = "indel").
Proof.
  split.
  - intros r a Hr Ha Nr Na Hne.
    destruct (SNP_init_nucleotides _ _ _ _ _ _ _ built r a Hr Ha Nr Na Hne)
      as [[Ht Hp]|[Ht Hp]]; rewrite Ht.
    + split; [now left|]. split; [tauto|].
      split; [discriminate | intros Hn; now exfalso].
    + split; [now right|]. split; [|tauto].
      split; [discriminate | intros Hn; now exfalso].
  - now apply SNP_init_indel with (chr := chr) (id := id) (pos := pos) (gt := gt).
Qed.

Lemma detect_type_classifies_witness :
  exists snp,
    SNP_init "chr19" "." "294525" "A" "C" "1|0" = Ok snp
    /\ type snp = "transversion".
Proof.
  eexists. split; [reflexivity|].
  destruct (detect_type_classifies "chr19" "." "294525" "A" "C" "1|0" _
              eq_refl) as [pairs _].
  destruct (pairs "A"%char "C"%char eq_refl eq_refl) as (_ & _ & tv).
  - left; reflexivity.
  - right; left; reflexivity.
  - discriminate.
  - apply tv. intros [[? ?]|[[? ?]|[[? ?]|[? ?]]]]; discriminate.
Defined.

(** C6. With [ref] and [alt] the same nucleotide, the transition test
    succeeds (both alleles occur in the same pair string), so the type is
    "transition", not the empty string; the empty string is only reached
    for equal alleles outside A, C, G, T. *)
Example same_allele_is_transition :
  (exists snp,
      SNP_init "chr1" "." "100" "A" "A" "0|1" = Ok snp
      /\ type snp = "transition" /\ type snp <> "")
  /\ option_map type
       (match SNP_init "chr1" "." "100" "C" "C" "0|1" with
        | Ok snp => Some snp | Raise _ => None end) = Some "transition"
  /\ option_map type
       (match SNP_init "chr1" "." "100" "G" "G" "0|1" with
        | Ok snp => Some snp | Raise _ => None end) = Some "transition"
  /\ option_map type
       (match SNP_init "chr1" "." "100" "T" "T" "0|1" with
        | Ok snp => Some snp | Raise _ => None end) = Some "transition"
  /\ option_map type
       (match SNP_init "chr1" "." "100" "N" "N" "0|1" with
        | Ok snp => Some snp | Raise _ => None end) = Some "".
Proof.
  split; [|repeat split].
  eexists. split; [reflexivity|]. split; [reflexivity|discriminate].
Qed.

(** * Position parsing *)

Lemma digit_val_nonneg (c : ascii) (d : Z) :
  digit_val c = Some d -> (0 <= d)%Z.
Proof.
  unfold digit_val.
  destruct ((48 <=? nat_of_ascii c)%nat && (nat_of_ascii c <=? 57)%nat);
    intros E; inversion E. apply Nat2Z.is_nonneg.
Qed.

Lemma int_digits_nonneg (s : string) :
  forall acc after z,
    int_digits s acc after = Some z -> (0 <= acc)%Z -> (0 <= z)%Z.
Proof.
  induction s as [|c s IH]; cbn [int_digits]; intros acc after z E Hacc.
  - destruct after; inversion E; subst; assumption.
  - destruct (Ascii.eqb c "_").
    + destruct after; [eauto | discriminate].
    + destruct (digit_val c) as [d|] eqn:D; [|discriminate].
      apply digit_val_nonneg in D. eapply IH; [eassumption | lia].
Qed.

Lemma int_rstrip_head (t : string) (c : ascii) (r : string) :
  int_rstrip t = String c r -> exists r', t = String c r'.
Proof.
  destruct t as [|b t']; simpl; [discriminate|].
  destruct (int_rstrip t'); [destruct (int_isspace b)|];
    intros E; inversion E; eauto.
Qed.

Lemma int_lstrip_head (s : string) (c : ascii) (r : string) :
  int_lstrip s = String c r -> contains (char c) s = true.
Proof.
  induction s as [|b s IH]; simpl; [discriminate|].
  destruct (int_isspace b).
  - intros E. rewrite (IH E). apply orb_true_r.
  - intros E. inversion E. now rewrite Ascii.eqb_refl.
Qed.

Lemma parse_int_nonneg (s : string) (z : Z) :
  parse_int s = Some z -> contains "-" s = false -> (0 <= z)%Z.
Proof.
  unfold parse_int. intros E Hminus.
  assert (no_minus : forall r, int_strip s <> String "-" r).
  { intros r Hs. unfold int_strip in Hs.
    destruct (int_rstrip_head _ _ _ Hs) as [r' Hl].
    apply int_lstrip_head in Hl. unfold char in Hl. congruence. }
  destruct (int_strip s) as [|c r] eqn:S.
  - eapply int_digits_nonneg; [eassumption | lia].
  - destruct (Ascii.eqb c "-") eqn:C.
    + apply Ascii.eqb_eq in C. subst c. now destruct (no_minus r).
    + assert (E' : int_digits r 0 false = Some z
                   \/ int_digits (String c r) 0 false = Some z).
      { destruct c as [[] [] [] [] [] [] [] []]; try discriminate C; auto. }
      destruct E' as [E'|E']; eapply int_digits_nonneg; try eassumption; lia.
Qed.

(** * The loader, line by line *)

Lemma unpack10_inv (l : list string) :
  (exists f0 f1 f2 f3 f4 f5 f6 f7 f8 f9,
      l = [f0; f1; f2; f3; f4; f5; f6; f7; f8; f9]
      /\ unpack10 l = Ok (f0, f1, f2, f3, f4, f5, f6, f7, f8, f9))
  \/ (length l <> 10%nat /\ unpack10 l = Raise ValueError).
Proof.
  do 10 (destruct l as [|? l];
         [right; split; [simpl; lia | reflexivity] |]).
  destruct l as [|? l].
  - left. repeat eexists.
  - right. split; [simpl; lia | reflexivity].
Qed.

Lemma unpack2_inv (l : list string) :
  (exists a b, l = [a; b] /\ unpack2 l = Ok (a, b))
  \/ (length l <> 2%nat /\ unpack2 l = Raise ValueError).
Proof.
  destruct l as [|a [|b [|c l]]];
    try (right; split; [simpl; lia | reflexivity]).
  left. repeat eexists.
Qed.

(** What one data line does, by the first test it fails. *)
Lemma load_line_cases (all_snps : list SNP) (line : string) :
  (startswith "chr" line = false /\ load_line all_snps line = Ok all_snps)
  \/ (startswith "chr" line = true
      /\ length (split TAB (strip line)) <> 10%nat
      /\ load_line all_snps line = Raise ValueError)
  \/ exists chrom pos id ref alt qual filter info format gt,
      startswith "chr" line = true
      /\ split TAB (strip line)
         = [chrom; pos; id; ref; alt; qual; filter; info; format; gt]
      /\ ((length (split PIPE gt) <> 2%nat
           /\ load_line all_snps line = Raise ValueError)
          \/ exists a b, split PIPE gt = [a; b]
             /\ ((a = b /\ load_line all_snps line = Ok all_snps)
                 \/ (a <> b
                     /\ load_line all_snps line
                        = (snp <- SNP_init chrom id pos ref alt gt ;;
                           if negb (type snp =? "indel")
                           then Ok (all_snps ++ [snp])
                           else Ok all_snps)))).
Proof.
  unfold load_line. destruct (startswith "chr" line); [|left; auto].
  right.
  destruct (unpack10_inv (split TAB (strip line)))
    as [(f0 & f1 & f2 & f3 & f4 & f5 & f6 & f7 & f8 & f9 & E & U)|[L U]];
    rewrite U; [|left; auto].
  right. exists f0, f1, f2, f3, f4, f5, f6, f7, f8, f9.
  split; [reflexivity|]. split; [assumption|]. cbn [bind].
  destruct (unpack2_inv (split PIPE f9)) as [(a & b & E2 & U2)|[L2 U2]];
    rewrite U2; [|left; auto].
  right. exists a, b. split; [assumption|]. cbn [bind].
  destruct (String.eqb_spec a b) as [Eab|Nab]; [left|right]; auto.
Qed.

Lemma SNP_init_raises (chr id pos ref alt gt : string) (e : exn) :
  SNP_init chr id pos ref alt gt = Raise e ->
  e = ValueError /\ parse_int pos = None.
Proof.
  unfold SNP_init, int. destruct (parse_int pos); simpl; intros E.
  - discriminate.
  - inversion E. auto.
Qed.

Lemma SNP_init_bad_position (chr id pos ref alt gt : string) :
  parse_int pos = None -> SNP_init chr id pos ref alt gt = Raise ValueError.
Proof. unfold SNP_init, int. now intros ->. Qed.

(** Whatever a line raises inside the [try] is a [ValueError]. *)
Lemma load_line_raises (all_snps : list SNP) (line : string) (e : exn) :
  load_line all_snps line = Raise e -> e = ValueError.
Proof.
  destruct (load_line_cases all_snps line)
    as [[_ E]|[(_ & _ & E)|(f0 & f1 & f2 & f3 & f4 & f5 & f6 & f7 & f8 & f9
                            & _ & _ & [[_ E]|(a & b & _ & [[_ E]|[_ E]])])]];
    rewrite E; intros R; try discriminate; try (now inversion R).
  destruct (SNP_init f0 f2 f1 f3 f4 f9) as [snp|e'] eqn:I; simpl in R.
  - destruct (negb (type snp =? "indel")); discriminate.
  - inversion R; subst. now apply SNP_init_raises in I.
Qed.

Lemma load_lines_raises (f : list string) :
  forall all_snps e, load_lines f all_snps = Raise e -> e = ValueError.
Proof.
  induction f as [|line rest IH]; simpl; intros acc e R; [discriminate|].
  destruct (load_line acc line) as [acc'|e'] eqn:L; simpl in R.
  - eauto.
  - inversion R; subst. eauto using load_line_raises.
Qed.

(** A line that raises on every accumulator makes the loop raise, whatever
    comes before or after it. *)
Lemma load_lines_raise_at (line : string) (f : list string) :
  In line f ->
  (forall all_snps, load_line all_snps line = Raise ValueError) ->
  forall all_snps, load_lines f all_snps = Raise ValueError.
Proof.
  intros Hin Hline. induction f as [|l rest IH]; [destruct Hin|].
  intros acc. simpl.
  destruct (load_line acc l) as [acc'|e] eqn:L; simpl.
  - destruct Hin as [->|Hin]; [rewrite Hline in L; discriminate | auto].
  - now rewrite (load_line_raises _ _ _ L).
Qed.

Lemma load_VCF_opened (fs : filesystem) (vcf_file : string) (f : list string) :
  fs vcf_file = Some f ->
  load_VCF fs vcf_file
  = match load_lines f [] with
    | Ok all_snps => Ok all_snps
    | Raise _ => Raise (RuntimeError "Not the right values to unpack.")
    end.
Proof.
  intros O. unfold load_VCF, open.
  destruct (has_nul vcf_file) eqn:N;
    [rewrite (lookup_nul fs _ N) in O; discriminate|].
  rewrite O. simpl.
  destruct (load_lines f []) as [out|e] eqn:L; [reflexivity|].
  now rewrite (load_lines_raises _ _ _ L).
Qed.

Lemma load_VCF_value_error (fs : filesystem) (vcf_file : string)
    (f : list string) :
  fs vcf_file = Some f ->
  load_lines f [] = Raise ValueError ->
  load_VCF fs vcf_file = Raise (RuntimeError "Not the right values to unpack.").
Proof. intros O L. rewrite (load_VCF_opened _ _ _ O). now rewrite L. Qed.

(** C5 as stated fails: the line is stripped before it is split, so a
    data line of 10 fields with a TAB before its line feed splits on tabs
    into 11 fields and is loaded all the same. *)
Lemma trailing_tab_line_loads :
  startswith "chr" trailing_tab_line = true
  /\ length (split TAB trailing_tab_line) = 11%nat
  /\ length (split TAB (strip trailing_tab_line)) = 10%nat
  /\ load_VCF (one_file "a.vcf" [valid_line; trailing_tab_line]) "a.vcf"
     = Ok [example_snp; example_snp].
Proof. repeat split. Qed.

(** C5, amended. A file with a line that begins with "chr" and whose text,
    once leading and trailing white space is stripped, does not split on
    tabs into exactly 10 fields makes [load_VCF] raise the "unpacking"
    [RuntimeError]; no list is returned, wherever the line is in the
    file. *)
Theorem malformed_record_aborts (fs : filesystem) (vcf_file : string)
    (f : list string) (line : string) :
  fs vcf_file = Some f ->
  In line f ->
  startswith "chr" line = true ->
  length (split TAB (strip line)) <> 10%nat ->
  load_VCF fs vcf_file = Raise (RuntimeError "Not the right values to unpack.").
Proof.
  intros O Hin Hchr Hlen. apply (load_VCF_value_error _ _ _ O).
  apply (load_lines_raise_at line); [assumption|].
  intros acc.
  destruct (load_line_cases acc line)
    as [[C _]|[(_ & _ & E)|(f0 & f1 & f2 & f3 & f4 & f5 & f6 & f7 & f8 & f9
                            & _ & S & _)]].
  - congruence.
  - exact E.
  - rewrite S in Hlen. now destruct Hlen.
Qed.

Lemma malformed_record_aborts_witness :
  load_VCF (one_file "a.vcf" [valid_line; nine_field_line]) "a.vcf"
  = Raise (RuntimeError "Not the right values to unpack.").
Proof.
  apply (malformed_record_aborts _ "a.vcf" [valid_line; nine_field_line]
           nine_field_line).
  - reflexivity.
  - right; left; reflexivity.
  - reflexivity.
  - vm_compute. discriminate.
Defined.

(** C7 as stated fails: the [ValueError] of [int(pos)] is raised inside the
    [try] of [load_VCF], so the caller sees the "unpacking" [RuntimeError],
    not the constructor's own exception. *)
Lemma invalid_position_is_caught :
  startswith "chr" bad_position_line = true
  /\ split TAB (strip bad_position_line)
     = ["chr19"; "12x"; "."; "A"; "C"; "0"; "PASS"; "KM=8"; "GT"; "1|0"]
  /\ split PIPE "1|0" = ["1"; "0"]
  /\ SNP_init "chr19" "." "12x" "A" "C" "1|0" = Raise ValueError
  /\ load_VCF (one_file "a.vcf" [bad_position_line]) "a.vcf"
     = Raise (RuntimeError "Not the right values to unpack.")
  /\ load_VCF (one_file "a.vcf" [bad_position_line]) "a.vcf"
     <> Raise ValueError.
Proof. repeat split; try reflexivity. vm_compute. discriminate. Qed.

(** C7, amended. For a heterozygous "chr" line of 10 fields whose position
    field [int] rejects, SNP construction raises [ValueError]; [load_VCF]
    catches it in its [except ValueError] handler and raises the same
    "unpacking" [RuntimeError] as for a malformed record. *)
Theorem invalid_position_reported_as_unpacking (fs : filesystem)
    (vcf_file : string) (f : list string) (line : string)
    (chrom pos id ref alt qual filter info format gt a b : string) :
  fs vcf_file = Some f ->
  In line f ->
  startswith "chr" line = true ->
  split TAB (strip line)
  = [chrom; pos; id; ref; alt; qual; filter; info; format; gt] ->
  split PIPE gt = [a; b] ->
  a <> b ->
  parse_int pos = None ->
  SNP_init chrom id pos ref alt gt = Raise ValueError
  /\ load_VCF fs vcf_file
     = Raise (RuntimeError "Not the right values to unpack.").
Proof.
  intros O Hin Hchr S G Hab P.
  split; [now apply SNP_init_bad_position|].
  apply (load_VCF_value_error _ _ _ O).
  apply (load_lines_raise_at line); [assumption|].
  intros acc. unfold load_line. rewrite Hchr, S. cbn [unpack10 bind].
  rewrite G. cbn [unpack2 bind].
  destruct (String.eqb_spec a b) as [E|_]; [contradiction|].
  cbn [negb]. now rewrite (SNP_init_bad_position _ _ _ _ _ _ P).
Qed.

Lemma invalid_position_reported_as_unpacking_witness :
  SNP_init "chr19" "." "12x" "A" "C" "1|0" = Raise ValueError
  /\ load_VCF (one_file "a.vcf" [valid_line; bad_position_line]) "a.vcf"
     = Raise (RuntimeError "Not the right values to unpack.").
Proof.
  apply (invalid_position_reported_as_unpacking
           _ "a.vcf" [valid_line; bad_position_line] bad_position_line
           "chr19" "12x" "." "A" "C" "0" "PASS" "KM=8" "GT" "1|0" "1" "0").
  - reflexivity.
  - right; left; reflexivity.
  - reflexivity.
  - reflexivity.
  - reflexivity.
  - discriminate.
  - reflexivity.
Defined.

(** * Lines the loader skips *)

Lemma load_line_homozygous (all_snps : list SNP) (line : string)
    (chrom pos id ref alt qual filter info format gt a : string) :
  startswith "chr" line = true ->
  split TAB (strip line)
  = [chrom; pos; id; ref; alt; qual; filter; info; format; gt] ->
  split PIPE gt = [a; a] ->
  load_line all_snps line = Ok all_snps.
Proof.
  intros Hchr S G. unfold load_line. rewrite Hchr, S. cbn [unpack10 bind].
  rewrite G. cbn [unpack2 bind]. now rewrite String.eqb_refl.
Qed.

Lemma load_lines_skip (line : string) (pre post : list string) :
  (forall all_snps, load_line all_snps line = Ok all_snps) ->
  forall all_snps,
    load_lines (pre ++ line :: post) all_snps
    = load_lines (pre ++ post) all_snps.
Proof.
  intros Hskip. induction pre as [|l pre IH]; intros acc; simpl.
  - now rewrite Hskip.
  - destruct (load_line acc l); simpl; auto.
Qed.

(** C10. A "chr" line of 10 fields whose genotype splits into two equal
    alleles leaves the list unchanged and constructs no SNP, whatever its
    position field holds: loading the file gives the same result as loading
    it without that line. *)
Theorem homozygous_line_is_skipped (fs fs' : filesystem)
    (vcf_file vcf_file' : string) (pre post : list string) (line : string)
    (chrom pos id ref alt qual filter info format gt a : string) :
  fs vcf_file = Some (pre ++ line :: post) ->
  fs' vcf_file' = Some (pre ++ post) ->
  startswith "chr" line = true ->
  split TAB (strip line)
  = [chrom; pos; id; ref; alt; qual; filter; info; format; gt] ->
  split PIPE gt = [a; a] ->
  (forall all_snps, load_line all_snps line = Ok all_snps)
  /\ load_VCF fs vcf_file = load_VCF fs' vcf_file'.
Proof.
  intros O O' Hchr S G.
  assert (Hskip : forall acc, load_line acc line = Ok acc)
    by (intros acc; eapply load_line_homozygous; eassumption).
  split; [exact Hskip|].
  rewrite (load_VCF_opened _ _ _ O), (load_VCF_opened _ _ _ O').
  now rewrite (load_lines_skip line pre post Hskip).
Qed.

Lemma homozygous_line_is_skipped_witness :
  parse_int "12x" = None
  /\ (forall all_snps,
         load_line all_snps homozygous_bad_position_line = Ok all_snps)
  /\ load_VCF (one_file "a.vcf" [valid_line; homozygous_bad_position_line])
              "a.vcf"
     = load_VCF (one_file "b.vcf" [valid_line]) "b.vcf".
Proof.
  split; [reflexivity|].
  apply (homozygous_line_is_skipped
           (one_file "a.vcf" [valid_line; homozygous_bad_position_line])
           (one_file "b.vcf" [valid_line]) "a.vcf" "b.vcf"
           [valid_line] [] homozygous_bad_position_line
           "chr19" "12x" "." "A" "C" "0" "PASS" "KM=8" "GT" "1|1" "1");
    reflexivity.
Defined.

(** * What the loader returns on well-formed files *)

Lemma load_lines_well_formed (f : list string) :
  forall rows snps all_snps,
    Forall2 row_of_line (filter (startswith "chr") f) rows ->
    Forall2 snp_of_row (filter heterozygous rows) snps ->
    load_lines f all_snps = Ok (all_snps ++ filter not_indel snps).
Proof.
  induction f as [|line rest IH]; intros rows snps acc Hrows Hsnps.
  - inversion Hrows; subst. inversion Hsnps; subst.
    simpl. now rewrite app_nil_r.
  - cbn [load_lines filter] in *. unfold load_line.
    destruct (startswith "chr" line); cbn [bind]; [|eauto].
    inversion Hrows as [|? r ? rows' (q & fi & inf & fo & S & G) Hrows']; subst.
    rewrite S. cbn [unpack10 bind]. rewrite G. cbn [unpack2 bind].
    cbn [filter] in Hsnps. unfold heterozygous at 1 in Hsnps.
    destruct (negb (row_a r =? row_b r)); [|eauto].
    inversion Hsnps as [|? snp ? snps' I Hsnps']; subst.
    unfold snp_of_row in I. rewrite I. cbn [bind filter].
    unfold not_indel at 1.
    destruct (negb (type snp =? "indel")); cbn [bind].
    + rewrite (IH _ _ _ Hrows' Hsnps'). now rewrite <- app_assoc.
    + eauto.
Qed.

(** C2. When every line of the file that begins with "chr" splits into 10
    fields and a two-allele genotype, and the heterozygous ones construct,
    [load_VCF] returns the SNPs of the heterozygous data lines whose type is
    not "indel", in file order and without removing duplicates; other
    lines contribute nothing. *)
Theorem load_VCF_keeps_het_non_indel (fs : filesystem) (vcf_file : string)
    (f : list string) (rows : list vcf_row) (snps : list SNP) :
  fs vcf_file = Some f ->
  Forall2 row_of_line (filter (startswith "chr") f) rows ->
  Forall2 snp_of_row (filter heterozygous rows) snps ->
  load_VCF fs vcf_file = Ok (filter not_indel snps).
Proof.
  intros O Hrows Hsnps. rewrite (load_VCF_opened _ _ _ O).
  now rewrite (load_lines_well_formed f rows snps [] Hrows Hsnps).
Qed.

Lemma load_VCF_keeps_het_non_indel_witness :
  load_VCF (one_file "a.vcf" example_file) "a.vcf"
  = Ok [example_snp; example_snp].
Proof.
  apply (load_VCF_keeps_het_non_indel
           (one_file "a.vcf" example_file) "a.vcf" example_file example_rows
           [example_snp; example_indel; example_snp]).
  - reflexivity.
  - repeat constructor; exists "0", "PASS", "KM=8", "GT"; split; reflexivity.
  - repeat constructor.
Defined.

(** * Positions *)

Lemma transversion_step_pos (self : SNP) (conbo : string) :
  pos (transversion_step self conbo) = pos self.
Proof.
  unfold transversion_step.
  now destruct (negb (ref self =? alt self) && contains (ref self) conbo
                && contains (alt self) conbo).
Qed.

Lemma detect_type_pos (self : SNP) : pos (detect_type self) = pos self.
Proof.
  unfold detect_type.
  destruct ((1 <? String.length (ref self))%nat
            || (1 <? String.length (alt self))%nat); [reflexivity|].
  match goal with |- context [if ?c then _ else _] => destruct c end;
    [reflexivity|].
  generalize TRANSVERSIONS as l. intros l. revert self.
  induction l as [|c l IH]; intros self; simpl; [reflexivity|].
  now rewrite IH, transversion_step_pos.
Qed.

Lemma SNP_init_pos (chr id p ref alt gt : string) (snp : SNP) :
  SNP_init chr id p ref alt gt = Ok snp -> parse_int p = Some (pos snp).
Proof.
  intros I. destruct (SNP_init_inv _ _ _ _ _ _ _ I) as (z & P & ->).
  now rewrite detect_type_pos.
Qed.

Lemma load_line_kept (all_snps : list SNP) (line : string)
    (out : list SNP) :
  load_line all_snps line = Ok out ->
  out = all_snps
  \/ exists snp, kept_from line snp /\ out = all_snps ++ [snp].
Proof.
  destruct (load_line_cases all_snps line)
    as [[_ E]|[(_ & _ & E)|(f0 & f1 & f2 & f3 & f4 & f5 & f6 & f7 & f8 & f9
                            & C & S & [[_ E]|(a & b & G & [[_ E]|[N E]])])]];
    rewrite E; intros R; try discriminate;
    try (left; now inversion R).
  destruct (SNP_init f0 f2 f1 f3 f4 f9) as [snp|e'] eqn:I;
    cbn [bind] in R; [|discriminate].
  destruct (type snp =? "indel") eqn:T; cbn [negb] in R;
    inversion R; subst; [now left|].
  right. exists snp. split; [|reflexivity].
  exists f0, f1, f2, f3, f4, f5, f6, f7, f8, f9, a, b.
  apply String.eqb_neq in T. auto 10.
Qed.

Lemma load_lines_kept (f : list string) :
  forall all_snps out,
    load_lines f all_snps = Ok out ->
    forall snp, In snp out ->
      In snp all_snps \/ exists line, In line f /\ kept_from line snp.
Proof.
  induction f as [|line rest IH]; cbn [load_lines];
    intros acc out L snp Hin.
  - inversion L; subst. now left.
  - destruct (load_line acc line) as [acc'|e] eqn:E; cbn [bind] in L;
      [|discriminate].
    destruct (IH _ _ L snp Hin) as [Hacc|(l & Hl & K)].
    + destruct (load_line_kept _ _ _ E) as [->|(s & K & ->)]; [now left|].
      apply in_app_or in Hacc. destruct Hacc as [Hacc|[<-|[]]]; [now left|].
      right. exists line. split; [now left | exact K].
    + right. exists l. split; [now right | exact K].
Qed.

(** C8 as stated fails: [int] accepts a leading minus sign, so a position
    field "-5" constructs an SNP with a negative [pos], and the loader
    returns it. *)
Lemma negative_position_accepted :
  exists snp,
    SNP_init "chr19" "." "-5" "A" "C" "1|0" = Ok snp
    /\ (pos snp < 0)%Z
    /\ load_VCF (one_file "a.vcf" [negative_position_line]) "a.vcf"
       = Ok [snp].
Proof. eexists. repeat split. Qed.

(** C8, amended. [pos] of a constructed SNP is the integer that [int]
    reads from the position string; it is non-negative when that string
    holds no minus sign.  The same holds for every SNP returned by
    [load_VCF], with the position field of the data line the SNP was
    constructed from. *)
Theorem pos_is_parsed_integer :
  (forall chr id p ref alt gt snp,
      SNP_init chr id p ref alt gt = Ok snp ->
      parse_int p = Some (pos snp)
      /\ (contains "-" p = false -> (0 <= pos snp)%Z))
  /\ (forall (fs : filesystem) vcf_file f snps snp,
         fs vcf_file = Some f ->
         load_VCF fs vcf_file = Ok snps ->
         In snp snps ->
         exists line chrom p id ref alt qual filter info format gt,
           In line f /\ startswith "chr" line = true
           /\ split TAB (strip line)
              = [chrom; p; id; ref; alt; qual; filter; info; format; gt]
           /\ SNP_init chrom id p ref alt gt = Ok snp
           /\ parse_int p = Some (pos snp)
           /\ (contains "-" p = false -> (0 <= pos snp)%Z)).
Proof.
  split.
  - intros chr id p ref alt gt snp I. apply SNP_init_pos in I.
    split; [exact I | now apply parse_int_nonneg].
  - intros fs vcf_file f snps snp O L Hin.
    rewrite (load_VCF_opened _ _ _ O) in L.
    destruct (load_lines f []) as [out|e] eqn:E; [|discriminate].
    inversion L; subst.
    destruct (load_lines_kept _ _ _ E snp Hin) as [[]|(line & Hl & K)].
    destruct K as (c & p & i & r & al & q & fi & inf & fo & g & a & b
                   & C & S & _ & _ & I & _).
    exists line, c, p, i, r, al, q, fi, inf, fo, g.
    pose proof (SNP_init_pos _ _ _ _ _ _ _ I) as P.
    repeat (split; [assumption|]).
    now apply parse_int_nonneg.
Qed.

Lemma pos_is_parsed_integer_witness :
  parse_int "294525" = Some (pos example_snp)
  /\ (0 <= pos example_snp)%Z
  /\ exists line chrom p id ref alt qual filter info format gt,
      In line example_file /\ startswith "chr" line = true
      /\ split TAB (strip line)
         = [chrom; p; id; ref; alt; qual; filter; info; format; gt]
      /\ SNP_init chrom id p ref alt gt = Ok example_snp
      /\ parse_int p = Some (pos example_snp)
      /\ (contains "-" p = false -> (0 <= pos example_snp)%Z).
Proof.
  destruct pos_is_parsed_integer as [built loaded].
  destruct (built "chr19" "." "294525" "A" "C" "1|0" example_snp eq_refl)
    as [parsed nonneg].
  split; [exact parsed|]. split; [exact (nonneg eq_refl)|].
  apply (loaded (one_file "a.vcf" example_file) "a.vcf" example_file
                [example_snp; example_snp] example_snp).
  - reflexivity.
  - reflexivity.
  - left; reflexivity.
Defined.

(** * Mapped reads *)

Lemma mapped_step_maps_to (self : SNP) (read r : Read) :
  maps_to (mapped_step self read) r = maps_to self r.
Proof. unfold mapped_step. now destruct (maps_to self read). Qed.

Lemma mapped_step_pos (self : SNP) (read : Read) :
  pos (mapped_step self read) = pos self.
Proof. unfold mapped_step. now destruct (maps_to self read). Qed.

Lemma filter_maps_to_ext (self self' : SNP) (l : list Read) :
  (forall r, maps_to self' r = maps_to self r) ->
  filter (maps_to self') l = filter (maps_to self) l.
Proof.
  intros E. induction l as [|r l IH]; simpl; [reflexivity|].
  now rewrite E, IH.
Qed.

Lemma detect_mapped_reads_lists (reads_data : list Read) :
  forall self,
    let hits := filter (maps_to self) reads_data in
    reads (detect_mapped_reads self reads_data) = reads self ++ hits
    /\ bases (detect_mapped_reads self reads_data)
       = bases self ++ map (fun read => get_base read (pos self)) hits
    /\ pos (detect_mapped_reads self reads_data) = pos self
    /\ chrom (detect_mapped_reads self reads_data) = chrom self.
Proof.
  unfold detect_mapped_reads.
  induction reads_data as [|read rest IH]; intros self; simpl.
  - now rewrite !app_nil_r.
  - destruct (IH (mapped_step self read)) as (R & B & P & C).
    rewrite R, B, P, C.
    rewrite (filter_maps_to_ext self (mapped_step self read) rest
               (mapped_step_maps_to self read)).
    rewrite mapped_step_pos. unfold mapped_step.
    destruct (maps_to self read); simpl.
    + now rewrite <- !app_assoc.
    + auto.
Qed.

(** C3. [detect_mapped_reads] appends to [reads] the reads of the input
    whose chromosome is the SNP's and whose interval [start, end] contains
    [pos], in input order and with repetitions kept, and appends to [bases]
    the base each of them gives at [pos]; the two lists grow by the same
    number of elements and stay index-aligned.  The input collection is a
    value of its own, not the SNP's [reads] list itself. *)
Theorem detect_mapped_reads_appends (self : SNP) (reads_data : list Read) :
  let self' := detect_mapped_reads self reads_data in
  let hits := filter (maps_to self) reads_data in
  reads self' = reads self ++ hits
  /\ bases self' = bases self ++ map (fun read => get_base read (pos self)) hits
  /\ (forall read,
         In read hits <->
         In read reads_data /\ chrom self = chr read
         /\ (start read <= pos self <= end_ read)%Z)
  /\ (length (reads self) = length (bases self) ->
      length (reads self') = length (bases self'))
  /\ (aligned self -> aligned self').
Proof.
  intros self' hits.
  destruct (detect_mapped_reads_lists reads_data self) as (R & B & P & _).
  fold self' hits in R, B, P.
  split; [exact R|]. split; [exact B|]. split; [|split].
  - intros read. unfold hits. rewrite filter_In. unfold maps_to.
    rewrite !andb_true_iff, String.eqb_eq, !Z.leb_le. tauto.
  - intros L. rewrite R, B, !length_app, length_map. lia.
  - unfold aligned. intros A. rewrite R, B, P, map_app. now rewrite A.
Qed.

Lemma detect_mapped_reads_appends_witness :
  let reads_data :=
    [read_chr1_100_200; read_chr2_100_200; read_chr1_150_150;
     read_chr1_100_200] in
  reads (detect_mapped_reads snp_chr1_150 reads_data)
  = [read_chr1_100_200; read_chr1_150_150; read_chr1_100_200]
  /\ bases (detect_mapped_reads snp_chr1_150 reads_data) = ["A"; "G"; "A"]
  /\ aligned (detect_mapped_reads snp_chr1_150 reads_data).
Proof.
  intros reads_data.
  destruct (detect_mapped_reads_appends snp_chr1_150 reads_data)
    as (R & B & _ & _ & A).
  split; [exact R|]. split; [exact B|]. apply A. reflexivity.
Defined.

(** * Most reads *)

(** The loop of [find_most_reads_snp] from a running maximum [m]: either no
    entity exceeds [m] and the state is unchanged, or the result is the
    first entity that reaches the greatest count. *)
Lemma most_reads_fold (snp_list : list SNP) :
  forall (m : nat) (best : option SNP),
    (Forall (fun e => nreads e <= m) snp_list
     /\ fold_left most_reads_step snp_list (m, best) = (m, best))
    \/ exists pre snp post,
        snp_list = pre ++ snp :: post
        /\ fold_left most_reads_step snp_list (m, best)
           = (nreads snp, Some snp)
        /\ m < nreads snp
        /\ Forall (fun e => nreads e < nreads snp) pre
        /\ Forall (fun e => nreads e <= nreads snp) post.
Proof.
  induction snp_list as [|x l IH]; intros m best.
  - left. split; [constructor | reflexivity].
  - cbn [fold_left most_reads_step]. fold (nreads x).
    destruct (Nat.ltb_spec m (nreads x)) as [Hlt|Hge].
    + right.
      destruct (IH (nreads x) (Some x))
        as [[Hall E]|(pre & s & post & -> & E & Hm & Hpre & Hpost)].
      * exists [], x, l. repeat split; auto.
      * exists (x :: pre), s, post. repeat split; auto; try lia.
    + destruct (IH m best)
        as [[Hall E]|(pre & s & post & -> & E & Hm & Hpre & Hpost)].
      * left. split; [constructor; auto | exact E].
      * right. exists (x :: pre), s, post. repeat split; auto.
        constructor; [lia | exact Hpre].
Qed.

(** C4. [find_most_reads_snp] returns [None] on an empty collection and
    when every entity has no mapped reads; otherwise it returns the first
    entity whose read count is greater than that of every earlier entity
    and not exceeded by any later one. *)
Theorem find_most_reads_snp_first_max (snp_list : list SNP) :
  (snp_list = [] -> find_most_reads_snp snp_list = None)
  /\ (Forall (fun e => length (reads e) = 0) snp_list ->
      find_most_reads_snp snp_list = None)
  /\ (Exists (fun e => 0 < length (reads e)) snp_list ->
      exists pre snp post,
        snp_list = pre ++ snp :: post
        /\ find_most_reads_snp snp_list = Some snp
        /\ 0 < length (reads snp)
        /\ Forall (fun e => length (reads e) < length (reads snp)) pre
        /\ Forall (fun e => length (reads e) <= length (reads snp)) post).
Proof.
  unfold find_most_reads_snp. split; [|split].
  - now intros ->.
  - intros Hzero.
    destruct (most_reads_fold snp_list 0 None)
      as [[_ E]|(pre & s & post & -> & _ & Hm & _ & _)]; [now rewrite E|].
    apply Forall_app in Hzero. destruct Hzero as [_ Hs].
    inversion Hs; subst. unfold nreads in Hm. lia.
  - intros Hex.
    destruct (most_reads_fold snp_list 0 None)
      as [[Hall _]|(pre & s & post & -> & E & Hm & Hpre & Hpost)].
    + apply Exists_exists in Hex. destruct Hex as (e & Hin & Hpos).
      rewrite Forall_forall in Hall. specialize (Hall e Hin).
      unfold nreads in Hall. lia.
    + exists pre, s, post. rewrite E. repeat split; auto.
Qed.

Lemma find_most_reads_snp_first_max_witness :
  find_most_reads_snp [] = None
  /\ find_most_reads_snp [snp_no_reads; snp_no_reads] = None
  /\ find_most_reads_snp ranked_snps = Some snp_two_reads
  /\ exists pre snp post,
      ranked_snps = pre ++ snp :: post
      /\ find_most_reads_snp ranked_snps = Some snp
      /\ 0 < length (reads snp)
      /\ Forall (fun e => length (reads e) < length (reads snp)) pre
      /\ Forall (fun e => length (reads e) <= length (reads snp)) post.
Proof.
  split; [|split; [|split]].
  - apply (proj1 (find_most_reads_snp_first_max [])). reflexivity.
  - apply (proj1 (proj2 (find_most_reads_snp_first_max
                           [snp_no_reads; snp_no_reads]))).
    repeat constructor.
  - reflexivity.
  - apply (proj2 (proj2 (find_most_reads_snp_first_max ranked_snps))).
    right; left. simpl. lia.
Defined.

(** * Equality and hashing *)

Lemma SNP_eq_iff (self other : SNP) :
  SNP_eq self other = true
  <-> chrom self = chrom other /\ pos self = pos other
      /\ mut self = mut other.
Proof.
  unfold SNP_eq. rewrite !andb_true_iff, !String.eqb_eq, Z.eqb_eq. tauto.
Qed.

(** C9. Two SNPs are equal exactly when [chrom], [pos] and [mut] agree; the
    hash is the hash of the pair ([chrom], [pos]), so equal SNPs have equal
    hashes; and [__ne__] is the boolean negation of [__eq__]. *)
Theorem SNP_eq_hash_ne (hash : string * Z -> Z) (self other : SNP) :
  (SNP_eq self other = true
   <-> chrom self = chrom other /\ pos self = pos other
       /\ mut self = mut other)
  /\ SNP_hash hash self = hash (chrom self, pos self)
  /\ (SNP_eq self other = true -> SNP_hash hash self = SNP_hash hash other)
  /\ SNP_ne self other = negb (SNP_eq self other).
Proof.
  split; [apply SNP_eq_iff|]. split; [reflexivity|]. split.
  - intros E. apply SNP_eq_iff in E. destruct E as (C & P & _).
    unfold SNP_hash. now rewrite C, P.
  - unfold SNP_ne, SNP_eq. now rewrite !negb_andb.
Qed.

Lemma SNP_eq_hash_ne_witness :
  exists a b,
    SNP_init "chr19" "." "294525" "A" "C" "1|0" = Ok a
    /\ SNP_init "chr19" "rs1" " 294525" "A" "C" "0|1" = Ok b
    /\ SNP_eq a b = true
    /\ SNP_hash length_hash a = SNP_hash length_hash b
    /\ SNP_ne a b = false.
Proof.
  eexists. eexists. split; [reflexivity|]. split; [reflexivity|].
  match goal with
  | |- SNP_eq ?a ?b = true /\ _ =>
      destruct (SNP_eq_hash_ne length_hash a b) as (E & _ & H & N)
  end.
  assert (Eq : SNP_eq _ _ = true) by (apply E; repeat split).
  split; [exact Eq|]. split; [exact (H Eq)|].
  rewrite N, Eq. reflexivity.
Defined.

(** * Classification on arbitrary alleles *)

(** [detect_type] assigns [type] and nothing else. *)
Lemma transversion_step_frame (self : SNP) (conbo : string) :
  exists t, transversion_step self conbo = set_type self t
            /\ (t = type self \/ t = "transversion").
Proof.
  unfold transversion_step.
  destruct (negb (ref self =? alt self) && contains (ref self) conbo
            && contains (alt self) conbo).
  - exists "transversion". auto.
  - exists (type self). split; [now destruct self | now left].
Qed.

Lemma transversion_fold_frame (l : list string) :
  forall self,
    exists t, fold_left transversion_step l self = set_type self t
              /\ (t = type self \/ t = "transversion").
Proof.
  induction l as [|c l IH]; intros self; simpl.
  - exists (type self). split; [now destruct self | now left].
  - destruct (transversion_step_frame self c) as (t & -> & Ht).
    destruct (IH (set_type self t)) as (t' & -> & Ht').
    exists t'. split; [reflexivity|]. simpl in Ht'.
    destruct Ht' as [-> | ->]; auto.
Qed.

Lemma detect_type_frame (self : SNP) :
  exists t, detect_type self = set_type self t.
Proof.
  unfold detect_type.
  destruct ((1 <? String.length (ref self))%nat
            || (1 <? String.length (alt self))%nat); [eauto|].
  match goal with |- context [if ?c then _ else _] => destruct c end;
    [eauto|].
  destruct (transversion_fold_frame TRANSVERSIONS self) as (t & -> & _).
  eauto.
Qed.

Lemma detect_type_values (self : SNP) :
  let long := ((1 <? String.length (ref self))%nat
               || (1 <? String.length (alt self))%nat) in
  (long = true /\ type (detect_type self) = "indel")
  \/ (long = false
      /\ (type (detect_type self) = "transition"
          \/ type (detect_type self) = "transversion"
          \/ type (detect_type self) = type self)).
Proof.
  unfold detect_type.
  destruct ((1 <? String.length (ref self))%nat
            || (1 <? String.length (alt self))%nat); cbv zeta;
    [left; split; reflexivity|].
  right. split; [reflexivity|].
  match goal with |- context [if ?c then _ else _] => destruct c end;
    [now left|].
  destruct (transversion_fold_frame TRANSVERSIONS self) as (t & -> & [-> | ->]);
    cbn [type set_type]; auto.
Qed.

(** X1. A constructed SNP has type "indel" exactly when [ref] or [alt] is
    longer than one character, and its type is always one of "indel",
    "transition", "transversion" and the empty string. *)
Theorem SNP_init_indel_iff (chr id pos r a gt : string) (snp : SNP) :
  SNP_init chr id pos r a gt = Ok snp ->
  (type snp = "indel"
   <-> (1 < String.length r \/ 1 < String.length a)%nat)
  /\ (type snp = "indel" \/ type snp = "transition"
      \/ type snp = "transversion" \/ type snp = "").
Proof.
  intros I. destruct (SNP_init_inv _ _ _ _ _ _ _ I) as (p & _ & ->).
  match goal with |- context [detect_type ?s] =>
    destruct (detect_type_values s) as [[L T]|[L T]]; cbn [ref alt type] in *
  end.
  - apply orb_true_iff in L. rewrite !Nat.ltb_lt in L.
    rewrite T. split; [tauto | now left].
  - apply orb_false_iff in L. rewrite !Nat.ltb_ge in L.
    split.
    + split; [|lia]. intros E.
      destruct T as [T|[T|T]]; rewrite T in E; discriminate.
    + tauto.
Qed.

Lemma SNP_init_indel_iff_witness :
  exists snp,
    SNP_init "chr19" "." "310000" "AT" "C" "0|1" = Ok snp
    /\ type snp = "indel".
Proof.
  eexists. split; [reflexivity|].
  apply (proj1 (SNP_init_indel_iff "chr19" "." "310000" "AT" "C" "0|1" _
                  eq_refl)).
  left. simpl. lia.
Defined.

Lemma contains_char_pair (r x y : ascii) :
  contains (char r) (String x (String y EmptyString))
  = Ascii.eqb r x || Ascii.eqb r y.
Proof.
  unfold char. simpl.
  destruct (Ascii.eqb r x), (Ascii.eqb r y); reflexivity.
Qed.

Lemma not_nucleotide_eqb (r : ascii) :
  ~ nucleotide r ->
  Ascii.eqb r "A" = false /\ Ascii.eqb r "C" = false
  /\ Ascii.eqb r "G" = false /\ Ascii.eqb r "T" = false.
Proof.
  unfold nucleotide. intros N.
  repeat split; apply Ascii.eqb_neq; intros ->; apply N; tauto.
Qed.

Lemma transversion_fold_none (l : list string) (self : SNP) :
  Forall (fun conbo =>
            contains (ref self) conbo && contains (alt self) conbo = false) l ->
  fold_left transversion_step l self = self.
Proof.
  induction 1 as [|c l Hc Hl IH]; simpl; [reflexivity|].
  unfold transversion_step at 2.
  rewrite <- andb_assoc, Hc, andb_false_r. exact IH.
Qed.

(** X2. When [ref] and [alt] are single characters and one of them is not
    [A], [C], [G] or [T] (an [N], a lower-case letter, a dot), no test
    succeeds and the type stays the empty string. *)
Theorem SNP_init_unknown_base (chr id pos gt : string) (r a : ascii)
    (snp : SNP) :
  SNP_init chr id pos (char r) (char a) gt = Ok snp ->
  ~ nucleotide r \/ ~ nucleotide a ->
  type snp = "".
Proof.
  intros I N. destruct (SNP_init_inv _ _ _ _ _ _ _ I) as (p & _ & ->).
  clear I.
  assert (none : forall x y,
             nucleotide x -> nucleotide y ->
             contains (char r) (String x (String y ""))
             && contains (char a) (String x (String y "")) = false).
  { intros x y Nx Ny. rewrite !contains_char_pair.
    destruct N as [N|N]; apply not_nucleotide_eqb in N;
      destruct N as (EA & EC & EG & ET);
      destruct Nx as [-> | [-> | [-> | ->]]];
      destruct Ny as [-> | [-> | [-> | ->]]];
      rewrite ?EA, ?EC, ?EG, ?ET; cbn [orb andb];
      rewrite ?andb_false_r; reflexivity. }
  assert (nA : nucleotide "A"%char) by (left; reflexivity).
  assert (nC : nucleotide "C"%char) by (right; left; reflexivity).
  assert (nG : nucleotide "G"%char) by (right; right; left; reflexivity).
  assert (nT : nucleotide "T"%char) by (right; right; right; reflexivity).
  unfold detect_type, TRANSITIONS. cbn [ref alt nth].
  rewrite (none "A"%char "G"%char nA nG), (none "C"%char "T"%char nC nT).
  unfold char at 1 2. cbn [String.length Nat.ltb Nat.leb orb].
  rewrite transversion_fold_none; [reflexivity|].
  unfold TRANSVERSIONS. cbn [ref alt]. repeat constructor; apply none; auto.
Qed.

Lemma SNP_init_unknown_base_witness :
  exists snp,
    SNP_init "chr1" "." "100" "a" "G" "0|1" = Ok snp /\ type snp = "".
Proof.
  eexists. split; [reflexivity|].
  apply (SNP_init_unknown_base "chr1" "." "100" "0|1" "a"%char "G"%char _
           eq_refl).
  left. intros [H|[H|[H|H]]]; discriminate.
Defined.

(** X3. An empty allele is a substring of every pair string: with an empty
    [ref] or [alt] and the other allele empty or a single nucleotide, the
    type is "transition". *)
Theorem SNP_init_empty_allele (chr id pos gt other : string) (snp : SNP) :
  other = "" \/ (exists c, nucleotide c /\ other = char c) ->
  SNP_init chr id pos "" other gt = Ok snp
  \/ SNP_init chr id pos other "" gt = Ok snp ->
  type snp = "transition".
Proof.
  intros Hother [I|I];
    destruct (SNP_init_inv _ _ _ _ _ _ _ I) as (p & _ & ->); clear I;
    destruct Hother as [-> | (c & [-> | [-> | [-> | ->]]] & ->)];
    reflexivity.
Qed.

Lemma SNP_init_empty_allele_witness :
  exists snp,
    SNP_init "chr1" "." "100" "" "C" "0|1" = Ok snp
    /\ type snp = "transition".
Proof.
  eexists. split; [reflexivity|].
  apply (SNP_init_empty_allele "chr1" "." "100" "0|1" "C" _).
  - right. exists "C"%char. split; [right; left; reflexivity | reflexivity].
  - left. reflexivity.
Defined.

Lemma transversion_fold_swap (l : list string) :
  forall s1 s2,
    ref s1 = alt s2 -> alt s1 = ref s2 -> type s1 = type s2 ->
    type (fold_left transversion_step l s1)
    = type (fold_left transversion_step l s2).
Proof.
  induction l as [|c l IH]; intros s1 s2 R A T; simpl; [exact T|].
  apply IH; unfold transversion_step; rewrite R, A;
    rewrite (String.eqb_sym (alt s2) (ref s2)),
            <- andb_assoc, (andb_comm (contains (alt s2) c)), andb_assoc;
    destruct (negb (ref s2 =? alt s2) && contains (ref s2) c
              && contains (alt s2) c); simpl; auto.
Qed.

Lemma detect_type_swap (s1 s2 : SNP) :
  ref s1 = alt s2 -> alt s1 = ref s2 -> type s1 = type s2 ->
  type (detect_type s1) = type (detect_type s2).
Proof.
  intros R A T. unfold detect_type. rewrite R, A.
  rewrite (orb_comm (1 <? String.length (alt s2))%nat).
  destruct ((1 <? String.length (ref s2))%nat
            || (1 <? String.length (alt s2))%nat); [reflexivity|].
  rewrite (andb_comm (contains (alt s2) (nth 0 TRANSITIONS ""))),
          (andb_comm (contains (alt s2) (nth 1 TRANSITIONS ""))).
  match goal with |- context [if ?c then _ else _] => destruct c end;
    [reflexivity|].
  now apply transversion_fold_swap.
Qed.

(** X4. The classification does not depend on which allele is the
    reference: exchanging [ref] and [alt] gives the same type, whatever the
    other constructor arguments are. *)
Theorem SNP_init_type_symmetric (chr id pos gt chr' id' pos' gt' r a : string)
    (snp snp' : SNP) :
  SNP_init chr id pos r a gt = Ok snp ->
  SNP_init chr' id' pos' a r gt' = Ok snp' ->
  type snp = type snp'.
Proof.
  intros I I'.
  destruct (SNP_init_inv _ _ _ _ _ _ _ I) as (p & _ & ->).
  destruct (SNP_init_inv _ _ _ _ _ _ _ I') as (p' & _ & ->).
  now apply detect_type_swap.
Qed.

Lemma SNP_init_type_symmetric_witness :
  exists snp snp',
    SNP_init "chr1" "." "100" "G" "T" "0|1" = Ok snp
    /\ SNP_init "chr2" "rs5" "7" "T" "G" "1|0" = Ok snp'
    /\ type snp = type snp'.
Proof.
  eexists. eexists. split; [reflexivity|]. split; [reflexivity|].
  apply (SNP_init_type_symmetric "chr1" "." "100" "0|1" "chr2" "rs5" "7"
           "1|0" "G" "T" _ _ eq_refl eq_refl).
Defined.

(** * Construction and equality *)

Lemma SNP_init_fields (c i p r a g : string) (snp : SNP) :
  SNP_init c i p r a g = Ok snp ->
  exists z t,
    parse_int p = Some z
    /\ snp = mkSNP c i z r a (r ++ a)%string g t [] [] [0%Z; 0%Z] None.
Proof.
  intros I. destruct (SNP_init_inv _ _ _ _ _ _ _ I) as (z & P & ->).
  match goal with |- context [detect_type ?s] =>
    destruct (detect_type_frame s) as (t & ->)
  end.
  exists z, t. split; [exact P | reflexivity].
Qed.

(** X5. Construction fails only on the position string, and then with
    [ValueError]; when it succeeds the entity holds the arguments as given,
    [mut] is [ref] followed by [alt], both read lists are empty, the
    likelihoods are [0, 0] and no model is assigned. *)
Theorem SNP_init_outcome (c i p r a g : string) :
  (parse_int p = None /\ SNP_init c i p r a g = Raise ValueError)
  \/ exists z snp,
      parse_int p = Some z /\ SNP_init c i p r a g = Ok snp
      /\ chrom snp = c /\ id snp = i /\ pos snp = z /\ ref snp = r
      /\ alt snp = a /\ gt snp = g /\ mut snp = (r ++ a)%string
      /\ reads snp = [] /\ bases snp = []
      /\ model_llkh snp = [0%Z; 0%Z] /\ model snp = None.
Proof.
  destruct (SNP_init c i p r a g) as [snp|e] eqn:I.
  - right. destruct (SNP_init_fields _ _ _ _ _ _ _ I) as (z & t & P & ->).
    exists z. eexists. split; [exact P|]. split; [reflexivity|].
    repeat split.
  - left. destruct (SNP_init_raises _ _ _ _ _ _ _ I) as [-> P]. auto.
Qed.

(** X6. Two constructed SNPs are equal exactly when their chromosome
    strings are the same, their position strings denote the same integer
    and [ref + alt] is the same string; [id], the genotype and the way the
    concatenation splits into [ref] and [alt] play no part. *)
Theorem SNP_eq_by_arguments (c1 i1 p1 r1 a1 g1 c2 i2 p2 r2 a2 g2 : string)
    (s1 s2 : SNP) :
  SNP_init c1 i1 p1 r1 a1 g1 = Ok s1 ->
  SNP_init c2 i2 p2 r2 a2 g2 = Ok s2 ->
  (SNP_eq s1 s2 = true
   <-> c1 = c2 /\ parse_int p1 = parse_int p2
       /\ (r1 ++ a1)%string = (r2 ++ a2)%string).
Proof.
  intros I1 I2.
  destruct (SNP_init_fields _ _ _ _ _ _ _ I1) as (z1 & t1 & P1 & ->).
  destruct (SNP_init_fields _ _ _ _ _ _ _ I2) as (z2 & t2 & P2 & ->).
  rewrite SNP_eq_iff, P1, P2. cbn [chrom pos mut].
  split; intros (C & P & M); repeat split; congruence.
Qed.

Lemma SNP_eq_by_arguments_witness :
  exists s1 s2,
    SNP_init "chr3" "." "007" "A" "TG" "0|1" = Ok s1
    /\ SNP_init "chr3" "rs9" " 7" "AT" "G" "1|0" = Ok s2
    /\ ref s1 <> ref s2 /\ SNP_eq s1 s2 = true.
Proof.
  eexists. eexists. split; [reflexivity|]. split; [reflexivity|].
  split; [discriminate|].
  apply (SNP_eq_by_arguments "chr3" "." "007" "A" "TG" "0|1"
           "chr3" "rs9" " 7" "AT" "G" "1|0" _ _ eq_refl eq_refl).
  repeat split.
Defined.

(** X7. [__eq__] is an equivalence relation on SNPs, and [__ne__] never
    holds between an SNP and itself. *)
Theorem SNP_eq_equivalence :
  (forall a, SNP_eq a a = true)
  /\ (forall a b, SNP_eq a b = SNP_eq b a)
  /\ (forall a b c,
         SNP_eq a b = true -> SNP_eq b c = true -> SNP_eq a c = true)
  /\ (forall a, SNP_ne a a = false).
Proof.
  split; [|split; [|split]].
  - intros a. apply SNP_eq_iff. auto.
  - intros a b. unfold SNP_eq.
    now rewrite (String.eqb_sym (chrom a)), (Z.eqb_sym (pos a)),
                (String.eqb_sym (mut a)).
  - intros a b c. rewrite !SNP_eq_iff.
    intros (C1 & P1 & M1) (C2 & P2 & M2). repeat split; congruence.
  - intros a. unfold SNP_ne.
    now rewrite !String.eqb_refl, Z.eqb_refl.
Qed.

Lemma SNP_eq_equivalence_witness :
  SNP_eq example_snp snp_two_reads = true
  /\ SNP_eq snp_two_reads (set_model example_snp 1) = true
  /\ SNP_eq example_snp (set_model example_snp 1) = true.
Proof.
  destruct SNP_eq_equivalence as (_ & _ & trans & _).
  assert (E1 : SNP_eq example_snp snp_two_reads = true) by reflexivity.
  assert (E2 : SNP_eq snp_two_reads (set_model example_snp 1) = true)
    by reflexivity.
  split; [exact E1|]. split; [exact E2|]. exact (trans _ _ _ E1 E2).
Defined.

(** * Read mapping as a whole *)

(** [detect_mapped_reads] in closed form: only the two lists change. *)
Lemma detect_mapped_reads_closed (reads_data : list Read) (self : SNP) :
  detect_mapped_reads self reads_data
  = set_reads_bases self
      (reads self ++ filter (maps_to self) reads_data)
      (bases self
       ++ map (fun read => get_base read (pos self))
              (filter (maps_to self) reads_data)).
Proof.
  unfold detect_mapped_reads. revert self.
  induction reads_data as [|read rest IH]; intros self; simpl.
  - rewrite !app_nil_r. now destruct self.
  - rewrite IH.
    rewrite (filter_maps_to_ext self (mapped_step self read) rest
               (mapped_step_maps_to self read)).
    rewrite mapped_step_pos. unfold mapped_step.
    destruct (maps_to self read); simpl.
    + unfold set_reads_bases. simpl. now rewrite <- !app_assoc.
    + reflexivity.
Qed.

Lemma set_reads_bases_same (self : SNP) :
  set_reads_bases self (reads self) (bases self) = self.
Proof. now destruct self. Qed.

(** X8. [detect_mapped_reads] changes no attribute other than [reads] and
    [bases], and when no read of the input covers the SNP (in particular on
    an empty input) it leaves the SNP as it was. *)
Theorem detect_mapped_reads_frame (self : SNP) (reads_data : list Read) :
  let self' := detect_mapped_reads self reads_data in
  (chrom self' = chrom self /\ id self' = id self /\ pos self' = pos self
   /\ ref self' = ref self /\ alt self' = alt self /\ mut self' = mut self
   /\ gt self' = gt self /\ type self' = type self
   /\ model_llkh self' = model_llkh self /\ model self' = model self)
  /\ (Forall (fun read => maps_to self read = false) reads_data ->
      self' = self).
Proof.
  cbv zeta. rewrite detect_mapped_reads_closed. split.
  - repeat split.
  - intros None.
    assert (E : filter (maps_to self) reads_data = []).
    { induction None as [|r l Hr _ IH]; simpl; [reflexivity|].
      now rewrite Hr. }
    rewrite E. simpl. rewrite !app_nil_r. apply set_reads_bases_same.
Qed.

Lemma detect_mapped_reads_frame_witness :
  detect_mapped_reads snp_chr1_150 [read_chr2_100_200; read_chr2_100_200]
  = snp_chr1_150.
Proof.
  apply (proj2 (detect_mapped_reads_frame snp_chr1_150
                  [read_chr2_100_200; read_chr2_100_200])).
  repeat constructor.
Defined.

(** X9. Successive calls accumulate: calling [detect_mapped_reads] on two
    collections in turn is the same as calling it once on their
    concatenation, so calling it twice on the same collection records every
    covering read and its base twice. *)
Theorem detect_mapped_reads_accumulates (self : SNP) (rs1 rs2 : list Read) :
  detect_mapped_reads (detect_mapped_reads self rs1) rs2
  = detect_mapped_reads self (rs1 ++ rs2)
  /\ reads (detect_mapped_reads (detect_mapped_reads self rs1) rs1)
     = reads self ++ filter (maps_to self) rs1 ++ filter (maps_to self) rs1
  /\ bases (detect_mapped_reads (detect_mapped_reads self rs1) rs1)
     = bases self
       ++ map (fun read => get_base read (pos self))
              (filter (maps_to self) rs1)
       ++ map (fun read => get_base read (pos self))
              (filter (maps_to self) rs1).
Proof.
  split.
  - unfold detect_mapped_reads. now rewrite fold_left_app.
  - rewrite (detect_mapped_reads_closed rs1 (detect_mapped_reads self rs1)).
    rewrite (filter_maps_to_ext self (detect_mapped_reads self rs1) rs1).
    + rewrite (detect_mapped_reads_closed rs1 self). simpl.
      now rewrite <- !app_assoc.
    + intros r. rewrite (detect_mapped_reads_closed rs1 self). reflexivity.
Qed.

(** X10. [map_reads] keeps the SNPs in place and in number; each one keeps
    its identity (it is equal to the SNP it was) and gains, after the reads
    it already had, the reads of the collection that cover it, in the
    collection's order. *)
Theorem map_reads_each (snps : list SNP) (reads_data : list Read) :
  length (map_reads snps reads_data) = length snps
  /\ Forall2
       (fun snp snp' =>
          SNP_eq snp snp' = true
          /\ type snp' = type snp
          /\ reads snp' = reads snp ++ filter (maps_to snp) reads_data
          /\ bases snp'
             = bases snp
               ++ map (fun read => get_base read (pos snp))
                      (filter (maps_to snp) reads_data))
       snps (map_reads snps reads_data).
Proof.
  unfold map_reads. split; [apply length_map|].
  induction snps as [|snp l IH]; simpl; constructor; [|exact IH].
  rewrite detect_mapped_reads_closed. split; [|repeat split].
  apply SNP_eq_iff. repeat split.
Qed.

(** X11. Mapping the reads in two batches gives the same SNPs as mapping
    their concatenation once, and mapping no reads changes nothing. *)
Theorem map_reads_batches (snps : list SNP) (rs1 rs2 : list Read) :
  map_reads (map_reads snps rs1) rs2 = map_reads snps (rs1 ++ rs2)
  /\ map_reads snps [] = snps.
Proof.
  unfold map_reads. split.
  - rewrite map_map. apply map_ext. intros snp.
    unfold detect_mapped_reads. now rewrite fold_left_app.
  - rewrite <- (map_id snps) at 2. apply map_ext. reflexivity.
Qed.


(** * Selection as a whole *)

Lemma find_most_reads_snp_cases (snp_list : list SNP) :
  (find_most_reads_snp snp_list = None
   /\ Forall (fun e => length (reads e) = 0) snp_list)
  \/ exists snp,
      find_most_reads_snp snp_list = Some snp
      /\ In snp snp_list /\ 0 < length (reads snp)
      /\ Forall (fun e => length (reads e) <= length (reads snp)) snp_list.
Proof.
  unfold find_most_reads_snp.
  destruct (most_reads_fold snp_list 0 None)
    as [[Hall E]|(pre & s & post & -> & E & Hm & Hpre & Hpost)]; rewrite E.
  - left. split; [reflexivity|].
    eapply Forall_impl; [|exact Hall]. unfold nreads. intros e He. lia.
  - right. exists s. split; [reflexivity|].
    split; [apply in_elt|]. split; [exact Hm|].
    apply Forall_app. split.
    + eapply Forall_impl; [|exact Hpre]. unfold nreads. intros e He. lia.
    + constructor; [lia | exact Hpost].
Qed.

(** X13. [find_most_reads_snp] returns [None] exactly when no SNP of the
    collection has a mapped read; an SNP it returns belongs to the
    collection, has at least one read, and no SNP of the collection has
    more reads. *)
Theorem find_most_reads_snp_maximum (snp_list : list SNP) :
  (find_most_reads_snp snp_list = None
   <-> Forall (fun e => length (reads e) = 0) snp_list)
  /\ (forall snp,
         find_most_reads_snp snp_list = Some snp ->
         In snp snp_list /\ 0 < length (reads snp)
         /\ Forall (fun e => length (reads e) <= length (reads snp))
                   snp_list).
Proof.
  destruct (find_most_reads_snp_cases snp_list)
    as [[E Hall]|(s & E & Hin & Hpos & Hmax)]; rewrite E.
  - split; [tauto | discriminate].
  - split.
    + split; [discriminate|]. intros Hall.
      rewrite Forall_forall in Hall. specialize (Hall s Hin). lia.
    + intros snp Es. inversion Es; subst. auto.
Qed.

Lemma find_most_reads_snp_maximum_witness :
  In snp_two_reads ranked_snps
  /\ 0 < length (reads snp_two_reads)
  /\ Forall (fun e => length (reads e) <= length (reads snp_two_reads))
            ranked_snps.
Proof.
  apply (proj2 (find_most_reads_snp_maximum ranked_snps) snp_two_reads).
  reflexivity.
Defined.

(** The loop of [find_most_reads_snp] started from any state, in terms of
    its result on the same collection. *)
Lemma most_reads_fold_from (snp_list : list SNP) :
  forall (m : nat) (best : option SNP),
    fold_left most_reads_step snp_list (m, best)
    = match find_most_reads_snp snp_list with
      | Some snp =>
          if (m <? length (reads snp))%nat then (length (reads snp), Some snp)
          else (m, best)
      | None => (m, best)
      end.
Proof.
  induction snp_list as [|x l IH]; intros m best; [reflexivity|].
  change (find_most_reads_snp (x :: l))
    with (snd (fold_left most_reads_step l (most_reads_step (0, None) x))).
  cbn [fold_left]. unfold most_reads_step.
  destruct (Nat.ltb_spec m (length (reads x)));
    destruct (Nat.ltb_spec 0 (length (reads x))); rewrite !IH;
    destruct (find_most_reads_snp l) as [s|]; cbn [snd];
    repeat match goal with
           | |- context [(?a <? ?b)%nat] => destruct (Nat.ltb_spec a b)
           end; cbn [snd]; try reflexivity; try lia;
    repeat match goal with
           | |- context [(?a <? ?b)%nat] => destruct (Nat.ltb_spec a b)
           end; try reflexivity; try lia.
Qed.

(** X14. On a concatenation, [find_most_reads_snp] returns the result for
    the first part unless the result for the second part has strictly more
    reads; a part without mapped reads does not count. *)
Theorem find_most_reads_snp_app (l1 l2 : list SNP) :
  find_most_reads_snp (l1 ++ l2)
  = match find_most_reads_snp l1, find_most_reads_snp l2 with
    | Some a, Some b =>
        if (length (reads a) <? length (reads b))%nat then Some b else Some a
    | Some a, None => Some a
    | None, other => other
    end.
Proof.
  unfold find_most_reads_snp at 1. rewrite fold_left_app.
  rewrite (most_reads_fold_from l1 0 None).
  destruct (find_most_reads_snp_cases l1) as [[E1 _]|(a & E1 & _ & Ha & _)];
    rewrite E1.
  - reflexivity.
  - destruct (Nat.ltb_spec 0 (length (reads a))); [|lia].
    rewrite most_reads_fold_from.
    destruct (find_most_reads_snp l2) as [b|]; [|reflexivity].
    now destruct (length (reads a) <? length (reads b))%nat.
Qed.

(** * The loader as a whole *)



(** X16. A data line of 10 fields whose genotype does not split on "|"
    into exactly two parts (an unphased [0/1], a triple) makes [load_VCF]
    raise the "unpacking" [RuntimeError]. *)
Theorem bad_genotype_aborts (fs : filesystem) (vcf_file : string)
    (f : list string) (line : string)
    (chrom pos id ref alt qual filter info format gt : string) :
  fs vcf_file = Some f ->
  In line f ->
  startswith "chr" line = true ->
  split TAB (strip line)
  = [chrom; pos; id; ref; alt; qual; filter; info; format; gt] ->
  length (split PIPE gt) <> 2%nat ->
  load_VCF fs vcf_file = Raise (RuntimeError "Not the right values to unpack.").
Proof.
  intros O Hin Hchr S G. apply (load_VCF_value_error _ _ _ O).
  apply (load_lines_raise_at line); [assumption|].
  intros acc. unfold load_line. rewrite Hchr, S. cbn [unpack10 bind].
  destruct (unpack2_inv (split PIPE gt)) as [(a & b & E & _)|[_ U]].
  - rewrite E in G. now destruct G.
  - now rewrite U.
Qed.

Lemma bad_genotype_aborts_witness :
  load_VCF (one_file "a.vcf" [valid_line; unphased_line]) "a.vcf"
  = Raise (RuntimeError "Not the right values to unpack.").
Proof.
  apply (bad_genotype_aborts _ "a.vcf" [valid_line; unphased_line]
           unphased_line
           "chr19" "294525" "." "A" "C" "0" "PASS" "KM=8" "GT" "0/1").
  - reflexivity.
  - right; left; reflexivity.
  - reflexivity.
  - reflexivity.
  - vm_compute. discriminate.
Defined.

Lemma load_lines_no_data (f : list string) :
  Forall (fun line => startswith "chr" line = false) f ->
  forall all_snps, load_lines f all_snps = Ok all_snps.
Proof.
  induction 1 as [|l rest Hl _ IH]; intros acc; cbn [load_lines];
    [reflexivity|].
  unfold load_line. rewrite Hl. cbn [bind]. apply IH.
Qed.

(** X17. A file in which no line begins with "chr" (an empty file, headers
    only, data lines with leading blanks or another prefix) loads as the
    empty list. *)
Theorem load_VCF_no_data_lines (fs : filesystem) (vcf_file : string)
    (f : list string) :
  fs vcf_file = Some f ->
  Forall (fun line => startswith "chr" line = false) f ->
  load_VCF fs vcf_file = Ok [].
Proof.
  intros O Hf. rewrite (load_VCF_opened _ _ _ O).
  now rewrite (load_lines_no_data f Hf []).
Qed.

Lemma load_VCF_no_data_lines_witness :
  load_VCF (one_file "a.vcf" [header_line; indented_line; ""]) "a.vcf"
  = Ok [].
Proof.
  apply (load_VCF_no_data_lines _ "a.vcf" [header_line; indented_line; ""]).
  - reflexivity.
  - repeat constructor.
Defined.

(** What a line adds does not depend on the list built so far. *)
Lemma load_line_acc (all_snps : list SNP) (line : string) :
  load_line all_snps line
  = (added <- load_line [] line ;; Ok (all_snps ++ added)).
Proof.
  unfold load_line.
  destruct (startswith "chr" line); cbn [bind];
    [|now rewrite app_nil_r].
  destruct (unpack10_inv (split TAB (strip line)))
    as [(f0 & f1 & f2 & f3 & f4 & f5 & f6 & f7 & f8 & f9 & _ & U)|[_ U]];
    rewrite U; cbn [bind]; [|reflexivity].
  destruct (unpack2_inv (split PIPE f9)) as [(a & b & _ & U2)|[_ U2]];
    rewrite U2; cbn [bind]; [|reflexivity].
  destruct (negb (a =? b)); cbn [bind]; [|now rewrite app_nil_r].
  destruct (SNP_init f0 f2 f1 f3 f4 f9) as [snp|e]; cbn [bind];
    [|reflexivity].
  destruct (negb (type snp =? "indel")); cbn [bind];
    now rewrite ?app_nil_r.
Qed.

Lemma load_lines_acc (f : list string) :
  forall all_snps,
    load_lines f all_snps
    = (added <- load_lines f [] ;; Ok (all_snps ++ added)).
Proof.
  induction f as [|line rest IH]; intros acc; cbn [load_lines bind].
  - now rewrite app_nil_r.
  - rewrite (load_line_acc acc line).
    destruct (load_line [] line) as [d|e]; cbn [bind]; [|reflexivity].
    rewrite (IH (acc ++ d)), (IH d).
    destruct (load_lines rest []) as [d'|e]; cbn [bind]; [|reflexivity].
    now rewrite app_assoc.
Qed.

Lemma load_lines_app (f1 f2 : list string) :
  forall all_snps,
    load_lines (f1 ++ f2) all_snps
    = (acc <- load_lines f1 all_snps ;; load_lines f2 acc).
Proof.
  induction f1 as [|line rest IH]; intros acc; cbn [load_lines app bind];
    [reflexivity|].
  destruct (load_line acc line) as [acc'|e]; cbn [bind]; auto.
Qed.

Lemma concat_files_complete (f1 f2 : list string) :
  ends_with_lf (last f1 (String "010" EmptyString)) = true ->
  concat_files f1 f2 = f1 ++ f2.
Proof.
  induction f1 as [|line rest IH]; [reflexivity|].
  destruct rest as [|line' rest'].
  - cbn [last concat_files app]. now intros ->.
  - intros H. change (concat_files (line :: line' :: rest') f2)
      with (line :: concat_files (line' :: rest') f2).
    rewrite IH; [reflexivity | exact H].
Qed.

(** X18. Loading the concatenation of two files, the first of which is
    empty or ends in a line feed, gives the SNPs of the first followed by
    the SNPs of the second when both load, and fails with the "unpacking"
    error when either does. *)
Theorem load_VCF_concatenation (fs1 fs2 fs : filesystem)
    (name1 name2 name : string) (f1 f2 : list string) :
  fs1 name1 = Some f1 ->
  fs2 name2 = Some f2 ->
  fs name = Some (concat_files f1 f2) ->
  ends_with_lf (last f1 (String "010" EmptyString)) = true ->
  load_VCF fs name
  = match load_VCF fs1 name1, load_VCF fs2 name2 with
    | Ok snps1, Ok snps2 => Ok (snps1 ++ snps2)
    | _, _ => Raise (RuntimeError "Not the right values to unpack.")
    end.
Proof.
  intros O1 O2 O Hlf. rewrite (concat_files_complete f1 f2 Hlf) in O.
  rewrite (load_VCF_opened _ _ _ O1), (load_VCF_opened _ _ _ O2),
          (load_VCF_opened _ _ _ O).
  rewrite load_lines_app.
  destruct (load_lines f1 []) as [a|e1]; cbn [bind].
  - rewrite load_lines_acc.
    destruct (load_lines f2 []) as [b|e2]; reflexivity.
  - destruct (load_lines f2 []); reflexivity.
Qed.

Lemma load_VCF_concatenation_witness :
  load_VCF (one_file "c.vcf"
              (concat_files example_file [indel_line; valid_line]))
           "c.vcf"
  = Ok [example_snp; example_snp; example_snp].
Proof.
  apply (load_VCF_concatenation
           (one_file "a.vcf" example_file)
           (one_file "b.vcf" [indel_line; valid_line])
           (one_file "c.vcf"
              (concat_files example_file [indel_line; valid_line]))
           "a.vcf" "b.vcf" "c.vcf" example_file [indel_line; valid_line]);
    reflexivity.
Defined.

(** ** What the loader returns *)

Lemma rstrip_cons_nonspace (c : ascii) (s : string) :
  isspace c = false -> rstrip (String c s) = String c (rstrip s).
Proof. intros H. cbn [rstrip]. rewrite H. now destruct (rstrip s). Qed.

Lemma split_cons_other (sep c : ascii) (s : string) :
  Ascii.eqb c sep = false ->
  exists field fields,
    split sep s = field :: fields
    /\ split sep (String c s) = String c field :: fields.
Proof.
  intros H. cbn [split]. rewrite H.
  destruct (split sep s) as [|field fields] eqn:E.
  - destruct s as [|d s']; cbn [split] in E; [discriminate|].
    destruct (Ascii.eqb d sep); [discriminate|].
    destruct (split sep s'); discriminate.
  - eauto.
Qed.

(** The first field of a line that begins with "chr" begins with "chr". *)
Lemma first_field_chr (line field : string) (fields : list string) :
  startswith "chr" line = true ->
  split TAB (strip line) = field :: fields ->
  startswith "chr" field = true.
Proof.
  intros C S.
  destruct line as [|c0 [|c1 [|c2 tl]]]; cbn [startswith] in C;
    try discriminate;
    try (rewrite ?andb_false_r in C; discriminate).
  apply andb_true_iff in C. destruct C as [C0 C].
  apply andb_true_iff in C. destruct C as [C1 C].
  apply andb_true_iff in C. destruct C as [C2 _].
  apply Ascii.eqb_eq in C0, C1, C2. subst c0 c1 c2.
  unfold strip in S. cbn [lstrip] in S.
  change (isspace "c") with false in S. cbv iota in S.
  rewrite !rstrip_cons_nonspace in S by reflexivity.
  destruct (split_cons_other TAB "r" (rstrip tl) eq_refl)
    as (x0 & xs0 & E0 & E0').
  destruct (split_cons_other TAB "h" (String "r" (rstrip tl)) eq_refl)
    as (x1 & xs1 & E1 & E1').
  destruct (split_cons_other TAB "c"
              (String "h" (String "r" (rstrip tl))) eq_refl)
    as (x2 & xs2 & E2 & E2').
  rewrite E2' in S. rewrite E1' in E2. rewrite E0' in E1.
  inversion E1; subst. inversion E2; subst. inversion S; subst.
  reflexivity.
Qed.

(** X19. Every SNP that [load_VCF] returns was built from a line of the
    file that begins with "chr", splits into 10 fields and has two
    different genotype alleles; its chromosome begins with "chr", it is
    not an indel ([ref] and [alt] have at most one character), and it
    carries no reads, no bases and no model. *)
Theorem load_VCF_returned (fs : filesystem) (vcf_file : string)
    (f : list string) (snps : list SNP) (snp : SNP) :
  fs vcf_file = Some f ->
  load_VCF fs vcf_file = Ok snps ->
  In snp snps ->
  (exists line p qual filter info format a b,
      In line f /\ startswith "chr" line = true
      /\ split TAB (strip line)
         = [chrom snp; p; id snp; ref snp; alt snp; qual; filter; info;
            format; gt snp]
      /\ split PIPE (gt snp) = [a; b] /\ a <> b)
  /\ startswith "chr" (chrom snp) = true
  /\ type snp <> "indel"
  /\ (String.length (ref snp) <= 1 /\ String.length (alt snp) <= 1)%nat
  /\ mut snp = (ref snp ++ alt snp)%string
  /\ reads snp = [] /\ bases snp = [] /\ model snp = None.
Proof.
  intros O L Hin. rewrite (load_VCF_opened _ _ _ O) in L.
  destruct (load_lines f []) as [out|e] eqn:E; [|discriminate].
  inversion L; subst.
  destruct (load_lines_kept _ _ _ E snp Hin) as [[]|(line & Hl & K)].
  destruct K as (c & p & i & r & al & q & fi & inf & fo & g & a & b
                 & C & S & G & N & I & T).
  pose proof (first_field_chr _ _ _ C S) as Hc.
  destruct (SNP_init_inv _ _ _ _ _ _ _ I) as (z & _ & Ev).
  destruct (SNP_init_fields _ _ _ _ _ _ _ I) as (z' & t & _ & ->).
  cbn [chrom id ref alt gt type mut reads bases model] in *.
  split; [exists line, p, q, fi, inf, fo, a, b; auto|].
  split; [exact Hc|]. split; [exact T|]. split; [|repeat split].
  match type of Ev with _ = detect_type ?s =>
    destruct (detect_type_values s) as [[_ Ti]|[Lo _]]
  end.
  - rewrite <- Ev in Ti. cbn [type] in Ti. contradiction.
  - cbn [ref alt] in Lo. apply orb_false_iff in Lo.
    rewrite !Nat.ltb_ge in Lo. exact Lo.
Qed.

Lemma load_VCF_returned_witness :
  startswith "chr" (chrom example_snp) = true
  /\ type example_snp <> "indel"
  /\ reads example_snp = [].
Proof.
  destruct (load_VCF_returned (one_file "a.vcf" example_file) "a.vcf"
              example_file [example_snp; example_snp] example_snp)
    as (_ & C & T & _ & _ & R & _).
  - reflexivity.
  - reflexivity.
  - left; reflexivity.
  - split; [exact C|]. split; [exact T | exact R].
Defined.

(** ** Trailing white space *)

Lemma lstrip_all_space (ws : string) :
  all_space ws = true -> lstrip ws = "".
Proof.
  induction ws as [|c ws IH]; cbn [all_space lstrip]; [reflexivity|].
  intros H. apply andb_true_iff in H. destruct H as [Hc Hws].
  rewrite Hc. auto.
Qed.

Lemma rstrip_all_space (ws : string) :
  all_space ws = true -> rstrip ws = "".
Proof.
  induction ws as [|c ws IH]; cbn [all_space rstrip]; [reflexivity|].
  intros H. apply andb_true_iff in H. destruct H as [Hc Hws].
  now rewrite (IH Hws), Hc.
Qed.

Lemma rstrip_app_space (t ws : string) :
  all_space ws = true -> rstrip (t ++ ws) = rstrip t.
Proof.
  intros H. induction t as [|c t IH]; cbn [String.append rstrip].
  - now apply rstrip_all_space.
  - now rewrite IH.
Qed.

Lemma strip_app_space (s ws : string) :
  all_space ws = true -> strip (s ++ ws) = strip s.
Proof.
  intros H. unfold strip.
  induction s as [|c s IH]; cbn [String.append lstrip].
  - now rewrite (lstrip_all_space ws H).
  - destruct (isspace c); [exact IH|].
    now apply (rstrip_app_space (String c s) ws).
Qed.

Lemma startswith_space_false (c : ascii) (p ws : string) :
  isspace c = false -> all_space ws = true ->
  startswith (String c p) ws = false.
Proof.
  intros Hc Hws. destruct ws as [|w ws]; cbn [startswith]; [reflexivity|].
  cbn [all_space] in Hws. apply andb_true_iff in Hws.
  destruct Hws as [Hw _].
  destruct (Ascii.eqb_spec c w) as [->|_]; [congruence | reflexivity].
Qed.

Lemma startswith_cons (a b : ascii) (p s : string) :
  startswith (String a p) (String b s) = Ascii.eqb a b && startswith p s.
Proof. reflexivity. Qed.

Lemma startswith_chr_app_space (line ws : string) :
  all_space ws = true ->
  startswith "chr" (line ++ ws) = startswith "chr" line.
Proof.
  intros H.
  pose proof (startswith_space_false "c" "hr" ws eq_refl H) as Hc.
  pose proof (startswith_space_false "h" "r" ws eq_refl H) as Hh.
  pose proof (startswith_space_false "r" "" ws eq_refl H) as Hr.
  destruct line as [|c0 [|c1 [|c2 tl]]]; cbn [String.append].
  - rewrite Hc. reflexivity.
  - rewrite !startswith_cons, Hh. reflexivity.
  - rewrite !startswith_cons, Hr. reflexivity.
  - reflexivity.
Qed.

Lemma load_line_trailing_space (all_snps : list SNP) (line ws : string) :
  all_space ws = true ->
  load_line all_snps (line ++ ws) = load_line all_snps line.
Proof.
  intros H. unfold load_line.
  now rewrite (startswith_chr_app_space line ws H),
              (strip_app_space line ws H).
Qed.

(** X20. White space at the end of a line (the line feed, a carriage
    return before it, trailing blanks or tabs) has no effect: two files
    whose lines differ only in trailing white space load alike. *)
Theorem load_VCF_trailing_space (fs fs' : filesystem)
    (vcf_file vcf_file' : string) (f f' : list string) :
  fs vcf_file = Some f ->
  fs' vcf_file' = Some f' ->
  Forall2 (fun line line' =>
             exists ws, all_space ws = true /\ line' = (line ++ ws)%string)
          f f' ->
  load_VCF fs' vcf_file' = load_VCF fs vcf_file.
Proof.
  intros O O' Hf.
  rewrite (load_VCF_opened _ _ _ O), (load_VCF_opened _ _ _ O').
  assert (E : forall acc, load_lines f' acc = load_lines f acc).
  { clear O O'. induction Hf as [|l l' r r' (ws & Hws & ->) _ IH];
      intros acc; cbn [load_lines]; [reflexivity|].
    rewrite (load_line_trailing_space acc l ws Hws).
    destruct (load_line acc l); cbn [bind]; auto. }
  now rewrite E.
Qed.

Lemma load_VCF_trailing_space_witness :
  load_VCF (one_file "dos.vcf" [(bare_line ++ CRLF)%string]) "dos.vcf"
  = load_VCF (one_file "bare.vcf" [bare_line]) "bare.vcf"
  /\ load_VCF (one_file "bare.vcf" [bare_line]) "bare.vcf"
     = Ok [example_snp].
Proof.
  split; [|reflexivity].
  apply (load_VCF_trailing_space
           (one_file "bare.vcf" [bare_line])
           (one_file "dos.vcf" [(bare_line ++ CRLF)%string])
           "bare.vcf" "dos.vcf" [bare_line] [(bare_line ++ CRLF)%string]).
  - reflexivity.
  - reflexivity.
  - constructor; [|constructor]. exists CRLF. split; reflexivity.
Defined.

(** * Mapping, then selecting *)

(** X21. For SNPs that carry no reads yet (such as those [load_VCF]
    returns), the SNP selected after [map_reads] is one of them with its
    covering reads attached, it is covered by at least one read, and no
    SNP of the collection is covered by more reads of the collection. *)
Theorem select_after_mapping (snps : list SNP) (reads_data : list Read)
    (best : SNP) :
  Forall (fun snp => reads snp = []) snps ->
  find_most_reads_snp (map_reads snps reads_data) = Some best ->
  exists snp,
    In snp snps
    /\ best = detect_mapped_reads snp reads_data
    /\ reads best = filter (maps_to snp) reads_data
    /\ 0 < length (filter (maps_to snp) reads_data)
    /\ Forall (fun other =>
                 length (filter (maps_to other) reads_data)
                 <= length (filter (maps_to snp) reads_data)) snps.
Proof.
  intros Hfresh Hbest.
  destruct (find_most_reads_snp_cases (map_reads snps reads_data))
    as [[E _]|(s & E & Hin & Hpos & Hmax)]; rewrite E in Hbest;
    [discriminate|].
  inversion Hbest; subst s. clear Hbest E.
  unfold map_reads in Hin, Hmax. apply in_map_iff in Hin.
  destruct Hin as (snp & <- & Hin).
  rewrite Forall_forall in Hfresh.
  assert (R : forall e, In e snps ->
                reads (detect_mapped_reads e reads_data)
                = filter (maps_to e) reads_data).
  { intros e He. rewrite detect_mapped_reads_closed. cbn [reads set_reads_bases].
    now rewrite (Hfresh e He). }
  exists snp. split; [exact Hin|]. split; [reflexivity|].
  split; [now apply R|]. rewrite <- (R snp Hin). split; [exact Hpos|].
  rewrite Forall_forall in *. intros other Ho.
  rewrite <- (R other Ho). apply Hmax.
  exact (in_map (fun s => detect_mapped_reads s reads_data) snps other Ho).
Qed.

Lemma select_after_mapping_witness :
  exists snp,
    In snp [example_snp; snp_chr1_150]
    /\ detect_mapped_reads snp_chr1_150 mapped_reads_data
       = detect_mapped_reads snp mapped_reads_data
    /\ 0 < length (filter (maps_to snp) mapped_reads_data).
Proof.
  destruct (select_after_mapping [example_snp; snp_chr1_150]
              mapped_reads_data
              (detect_mapped_reads snp_chr1_150 mapped_reads_data))
    as (snp & Hin & E & _ & Hpos & _).
  - repeat constructor.
  - reflexivity.
  - exists snp. auto.
Defined.
